(** * auto_analytics: the markdown to DOCX converter of [tools.py]

    A shallow embedding of [MarkdownToDocxTool._run] and of the library
    operations it calls (Python [str] methods, the [re] module on the
    patterns of the source, [os.path.dirname], [os.makedirs]), followed by the
    properties of the converter.

    Python strings are sequences of Unicode code points; they are modelled as
    lists of [N].  The python-docx document is modelled as the list of the
    elements appended to it; a text that lxml refuses (a control character,
    a surrogate) makes the call that writes it raise, after the paragraph
    has been appended.  Calls that reach outside the program (the clock,
    the file system, the picture loader, markdown2) take their outcome from an
    environment record, and those that touch the file system are recorded in
    a log.  Paths are POSIX paths. *)

From Stdlib Require Import String Ascii NArith Arith Bool Lia List.
Import ListNotations.

Set Implicit Arguments.

(* ================================================================== *)
(** ** Python [str] *)

Module Str.

Definition str := list N.

(** Literals: the code point of an ASCII character and the code points of
    an ASCII string. *)
Definition chr (a : ascii) : N := N_of_ascii a.
Definition u (s : string) : str := map chr (list_ascii_of_string s).

Definition NL : N := 10.   (* the newline *)

Fixpoint eqb (a b : str) : bool :=
  match a, b with
  | [], [] => true
  | x :: a', y :: b' => N.eqb x y && eqb a' b'
  | _, _ => false
  end.

(** [s.startswith(prefix)] *)
Fixpoint startswith (prefix s : str) : bool :=
  match prefix with
  | [] => true
  | p :: prefix' =>
      match s with
      | [] => false
      | c :: s' => N.eqb p c && startswith prefix' s'
      end
  end.

(** [sub in s] *)
Fixpoint contains (sub s : str) : bool :=
  startswith sub s ||
  match s with
  | [] => false
  | _ :: s' => contains sub s'
  end.

(** [str.isspace] on one code point: the white space table of CPython
    ([_PyUnicode_IsWhitespace]); [str.strip()] and the pattern [\s] use it. *)
Definition is_space (c : N) : bool :=
  (((9 <=? c) && (c <=? 13)) || ((28 <=? c) && (c <=? 32))
   || (c =? 133) || (c =? 160) || (c =? 5760)
   || ((8192 <=? c) && (c <=? 8202))
   || (c =? 8232) || (c =? 8233) || (c =? 8239) || (c =? 8287)
   || (c =? 12288))%N.

Fixpoint lstrip (s : str) : str :=
  match s with
  | c :: s' => if is_space c then lstrip s' else s
  | [] => []
  end.

Definition rstrip (s : str) : str := rev (lstrip (rev s)).

(** [s.strip()] *)
Definition strip (s : str) : str := rstrip (lstrip s).

(** [s.split(sep)] for a separator of one code point (the source splits on
    a newline and on a vertical bar). *)
Fixpoint split (sep : N) (s : str) : list str :=
  match s with
  | [] => [[]]
  | c :: s' =>
      if N.eqb c sep then [] :: split sep s'
      else match split sep s' with
           | [] => [[c]]
           | w :: ws => (c :: w) :: ws
           end
  end.

(** [sep.join(parts)] *)
Fixpoint join (sep : str) (parts : list str) : str :=
  match parts with
  | [] => []
  | [p] => p
  | p :: ps => p ++ sep ++ join sep ps
  end.

(** [s.replace(old, new)]: every occurrence, left to right, without
    overlap.  [skip] counts the code points of an occurrence that was just
    replaced and that are still to be passed over. *)
Fixpoint replace_from (old new s : str) (skip : nat) : str :=
  match s with
  | [] => []
  | c :: s' =>
      match skip with
      | S k => replace_from old new s' k
      | O =>
          if startswith old s
          then new ++ replace_from old new s' (List.length old - 1)
          else c :: replace_from old new s' 0
      end
  end.

Definition replace (old new s : str) : str :=
  match old with
  | [] => new ++ flat_map (fun c => c :: new) s
  | _ => replace_from old new s 0
  end.

(** [s[i:j]] for [0 <= i], [0 <= j] *)
Definition slice (s : str) (i j : nat) : str := firstn (j - i) (skipn i s).

(** [l[1:-1]] *)
Definition inner {A} (l : list A) : list A := removelast (tl l).

End Str.

Import Str.

(* ================================================================== *)
(** ** The [re] module on the patterns of the source

    The patterns of [tools.py] are sequences of single characters or
    character classes, repetitions of one class ([\d+], [.*], [.*?]),
    groups and the anchors [^] and [$].  The matcher below is the
    backtracking matcher of [re] on such sequences: alternatives are tried
    in the order of [re], and the first that succeeds is the match. *)

Module Re.

Inductive atom :=
| Lit (c : N)      (* an escaped or plain character *)
| Dot              (* [.]: anything but a newline *)
| Digit            (* [\d] *)
| Space.           (* [\s] *)

Inductive node :=
| One (a : atom)
| Rep (lo : nat) (greedy : bool) (a : atom)   (* a{lo,} or a{lo,}? *)
| GOpen
| GClose
| Bol              (* [^] without MULTILINE *)
| Eol.             (* [$] without MULTILINE *)

Definition regex := list node.

(** The marks of an attempt: positions of the groups still open (innermost
    first) and the spans of the closed ones (last closed first). *)
Record marks := { opened : list nat; closed : list (nat * nat) }.

Definition no_marks : marks := {| opened := []; closed := [] |}.

Definition mark_open (g : marks) (pos : nat) : marks :=
  {| opened := pos :: opened g; closed := closed g |}.

Definition mark_close (g : marks) (pos : nat) : marks :=
  match opened g with
  | o :: os => {| opened := os; closed := (o, pos) :: closed g |}
  | [] => g
  end.

(** A pattern without its groups. *)
Definition keeps (n : node) : bool :=
  match n with
  | GOpen | GClose => false
  | _ => true
  end.

Definition erase (p : regex) : regex := filter keeps p.

Section Matcher.

(** [\d] on a [str] pattern is Unicode category Nd.  On ASCII that is
    [0-9]; the table of the other decimal digits belongs to the
    interpreter's Unicode database and is a parameter here. *)
Variable uni_decimal : N -> bool.

Definition is_decimal (c : N) : bool :=
  if (c <? 128)%N then (48 <=? c)%N && (c <=? 57)%N else uni_decimal c.

Definition atom_ok (a : atom) (c : N) : bool :=
  match a with
  | Lit x => N.eqb x c
  | Dot => negb (N.eqb c NL)
  | Digit => is_decimal c
  | Space => is_space c
  end.

(** [$]: at the end, or before a newline that ends the string. *)
Definition at_end (s : str) : bool :=
  match s with
  | [] => true
  | [c] => N.eqb c NL
  | _ => false
  end.

Section Rep.
Variable R : Type.
Variable ok : N -> bool.
Variable greedy : bool.
Variable k : nat -> str -> option R.   (* the rest of the pattern *)

Definition or_else (a b : option R) : option R :=
  match a with Some r => Some r | None => b end.

(** Repetition of one class: [lo] occurrences are still required.  A
    greedy repetition first tries one more occurrence and falls back to the
    rest of the pattern; a lazy one does the opposite. *)
Fixpoint rep (lo pos : nat) (s : str) {struct s} : option R :=
  match s with
  | [] => match lo with O => k pos [] | S _ => None end
  | c :: s' =>
      match lo with
      | S lo' => if ok c then rep lo' (S pos) s' else None
      | O =>
          if greedy
          then or_else (if ok c then rep 0 (S pos) s' else None) (k pos s)
          else or_else (k pos s) (if ok c then rep 0 (S pos) s' else None)
      end
  end.
End Rep.

(** One attempt at position [pos], where [s] is the text from [pos] on:
    the end of the match and its marks. *)
Fixpoint attempt (p : regex) (pos : nat) (s : str) (g : marks)
  : option (nat * marks) :=
  match p with
  | [] => Some (pos, g)
  | One a :: p' =>
      match s with
      | c :: s' => if atom_ok a c then attempt p' (S pos) s' g else None
      | [] => None
      end
  | Rep lo greedy a :: p' =>
      rep (atom_ok a) greedy (fun pos' s' => attempt p' pos' s' g) lo pos s
  | GOpen :: p' => attempt p' pos s (mark_open g pos)
  | GClose :: p' => attempt p' pos s (mark_close g pos)
  | Bol :: p' => if Nat.eqb pos 0 then attempt p' pos s g else None
  | Eol :: p' => if at_end s then attempt p' pos s g else None
  end.

(** A match object: [m.start()], [m.end()] and the text of its groups,
    [m.group(1)] first. *)
Record rmatch := { m_start : nat; m_end : nat; m_groups : list str }.

Definition group (m : rmatch) (i : nat) : str := nth (i - 1) (m_groups m) [].

Definition mk_match (text : str) (start : nat) (r : nat * marks) : rmatch :=
  {| m_start := start;
     m_end := fst r;
     m_groups := map (fun sp => slice text (fst sp) (snd sp))
                     (rev (closed (snd r))) |}.

(** [re.match(p, text)] *)
Definition re_match (p : regex) (text : str) : option rmatch :=
  option_map (mk_match text 0) (attempt p 0 text no_marks).

(** The scan of [re.finditer] and [re.sub]: an attempt at every position
    from left to right; after a match the scan resumes at its end.  [s] is
    the text from [pos] on and [skip] the number of positions still covered
    by the last match. *)
Fixpoint scan (p : regex) (text : str) (pos : nat) (s : str) (skip : nat)
  : list rmatch :=
  match skip with
  | S k =>
      match s with
      | [] => []
      | _ :: s' => scan p text (S pos) s' k
      end
  | O =>
      match attempt p pos s no_marks with
      | Some r =>
          mk_match text pos r ::
          match s with
          | [] => []
          | _ :: s' => scan p text (S pos) s' (fst r - pos - 1)
          end
      | None =>
          match s with
          | [] => []
          | _ :: s' => scan p text (S pos) s' 0
          end
      end
  end.

(** [list(re.finditer(p, text))] *)
Definition finditer (p : regex) (text : str) : list rmatch :=
  scan p text 0 text 0.

(** [re.sub(p, repl, text)] for a replacement without group references:
    the text between the matches, with [repl] in place of each match. *)
Fixpoint sub_from (repl text : str) (cur : nat) (ms : list rmatch) : str :=
  match ms with
  | [] => skipn cur text
  | m :: ms' =>
      slice text cur (m_start m) ++ repl ++ sub_from repl text (m_end m) ms'
  end.

Definition re_sub (p : regex) (repl text : str) : str :=
  sub_from repl text 0 (finditer p text).

End Matcher.

End Re.

Import Re.

(* ================================================================== *)
(** ** [os.path.dirname] (posixpath) *)

Module Path.

(** [p.rfind(sep) + 1]: the position after the last [sep], 0 without one. *)
Fixpoint after_last (sep : N) (p : str) : nat :=
  match p with
  | [] => 0
  | c :: p' =>
      match after_last sep p' with
      | O => if N.eqb c sep then 1 else 0
      | S i => S (S i)
      end
  end.

(** [head.rstrip(sep)] *)
Fixpoint lstrip_chr (sep : N) (s : str) : str :=
  match s with
  | c :: s' => if N.eqb c sep then lstrip_chr sep s' else s
  | [] => []
  end.

Definition rstrip_chr (sep : N) (s : str) : str := rev (lstrip_chr sep (rev s)).

Definition SEP : N := chr "/".

Definition dirname (p : str) : str :=
  let i := after_last SEP p in
  let head := firstn i p in
  match head with
  | [] => head
  | _ => if Str.eqb head (repeat SEP (List.length head)) then head
         else rstrip_chr SEP head
  end.

End Path.

(* ================================================================== *)
(** ** python-docx: the document as the list of its elements *)

Module Docx.

Inductive alignment := CENTER.

(** A run: its text, the properties that [tools.py] sets, and the picture
    it holds (path and width in inches). *)
Record run := {
  r_text : str;
  r_bold : bool;
  r_italic : bool;
  r_font : option str;
  r_size : option nat;             (* Pt *)
  r_picture : option (str * nat)
}.

Definition text_run (t : str) : run :=
  {| r_text := t; r_bold := false; r_italic := false; r_font := None;
     r_size := None; r_picture := None |}.

Record paragraph := {
  p_style : option str;
  p_alignment : option alignment;
  p_runs : list run
}.

Inductive element :=
| Heading (text : str) (level : nat)     (* [doc.add_heading(text, level)] *)
| Para (p : paragraph).

Definition document := list element.

(** The paragraph made by [doc.add_paragraph(text, style)]: a run is added
    only for a text that is not empty. *)
Definition new_paragraph (text : str) (style : option str) : paragraph :=
  {| p_style := style; p_alignment := None;
     p_runs := match text with [] => [] | _ => [text_run text] end |}.

Definition para_text (p : paragraph) : str := concat (map r_text (p_runs p)).

(** [p.add_run(...)]: one more run at the end of the paragraph. *)
Definition push_run (r : run) (p : paragraph) : paragraph :=
  {| p_style := p_style p; p_alignment := p_alignment p;
     p_runs := p_runs p ++ [r] |}.

(** The characters that lxml accepts in a text, those of XML 1.0: it
    refuses the control characters other than tab, newline and carriage
    return, the surrogates, U+FFFE and U+FFFF. *)
Definition xml_char (c : N) : bool :=
  ((c =? 9) || (c =? 10) || (c =? 13)
   || ((32 <=? c) && (c <=? 55295))
   || ((57344 <=? c) && (c <=? 65533))
   || ((65536 <=? c) && (c <=? 1114111)))%N.

Definition xml_compatible (t : str) : bool := forallb xml_char t.

Definition is_surrogate (c : N) : bool := ((55296 <=? c) && (c <=? 57343))%N.

(** [run.text = t] writes the text piece by piece: a tab, a newline or a
    carriage return ends a piece and becomes an element of its own, and a
    piece is handed to lxml when it ends.  [write_pieces t piece] is what
    the run holds in the end, and the piece that lxml has refused, if there
    is one: the pieces before it are written, nothing after it is. *)
Definition is_break (c : N) : bool := ((c =? 9) || (c =? 10) || (c =? 13))%N.

Fixpoint write_pieces (t piece : str) : str * option str :=
  match t with
  | [] => if xml_compatible piece then (piece, None) else ([], Some piece)
  | c :: t' =>
      if is_break c then
        if xml_compatible piece then
          let (rest, r) := write_pieces t' [] in (piece ++ c :: rest, r)
        else ([], Some piece)
      else write_pieces t' (piece ++ [c])
  end.

Definition written (t : str) : str := fst (write_pieces t []).
Definition refused (t : str) : option str := snd (write_pieces t []).

(** The paragraph that [doc.add_paragraph(text, style)] leaves behind when
    its text is refused: the paragraph is appended and its run is added
    before the text is written, the style is set after. *)
Definition partial_paragraph (text : str) : paragraph :=
  {| p_style := None; p_alignment := None;
     p_runs := [text_run (written text)] |}.

End Docx.

Import Docx.

(* ================================================================== *)
(** ** Effects: exceptions, the document under construction, the log *)

Module Eff.

(** An instance of [Exception]; [exn_str e] is [str(e)]. *)
Record exn := { exn_str : str }.

(** The calls that reach outside the program. *)
Inductive event :=
| EExists (path : str)                    (* [os.path.exists(path)] *)
| EAddPicture (path : str)                (* [run.add_picture(path, ...)] *)
| EMakedirs (name : str)                  (* [os.makedirs(name, exist_ok=True)] *)
| ESave (path : str) (doc : document).    (* [doc.save(path)] *)

(** The calls that only look at the file system. *)
Definition is_read (ev : event) : bool :=
  match ev with
  | EExists _ | EAddPicture _ => true
  | EMakedirs _ | ESave _ _ => false
  end.


(** What the outside answers.  A fault is the exception the call raises;
    [None] is a normal return. *)
Record Env := {
  now_stamp : str;        (* [datetime.now().strftime('%Y%m%d_%H%M%S')] *)
  markdown2_fault : str -> option exn;
  path_exists : str -> bool;
  picture_fault : str -> option exn;
  mkdir_fault : str -> option exn;
  save_fault : document -> str -> option exn;
  encode_fault : str -> exn   (* the [UnicodeEncodeError] of [s.encode('utf8')]
                                 on a text with a surrogate *)
}.

Record world := { w_doc : document; w_log : list event }.

Inductive outcome (A : Type) :=
| Ok (a : A)
| Raise (e : exn).
Arguments Ok {A} a.
Arguments Raise {A} e.

Definition M (A : Type) : Type := world -> outcome A * world.

Definition ret {A} (a : A) : M A := fun w => (Ok a, w).

Definition bind {A B} (c : M A) (f : A -> M B) : M B :=
  fun w =>
    match c w with
    | (Ok a, w') => f a w'
    | (Raise e, w') => (Raise e, w')
    end.

Definition raise {A} (e : exn) : M A := fun w => (Raise e, w).

(** [try: c except Exception as e: h e].  What [c] did to the document and
    to the log before it raised stays done. *)
Definition try_except {A} (c : M A) (h : exn -> M A) : M A :=
  fun w =>
    match c w with
    | (Ok a, w') => (Ok a, w')
    | (Raise e, w') => h e w'
    end.

Definition log (ev : event) : M unit :=
  fun w => (Ok tt, {| w_doc := w_doc w; w_log := w_log w ++ [ev] |}).

Definition get_doc : M document := fun w => (Ok (w_doc w), w).

Definition set_doc (d : document) : M unit :=
  fun w => (Ok tt, {| w_doc := d; w_log := w_log w |}).

(** Append an element to the document. *)
Definition add (e : element) : M unit :=
  fun w => (Ok tt, {| w_doc := w_doc w ++ [e]; w_log := w_log w |}).

(** Change the paragraph added last, through the reference the program
    holds on it. *)
Definition update_last (f : paragraph -> paragraph) : M unit :=
  fun w =>
    (Ok tt,
     {| w_doc := match rev (w_doc w) with
                 | Para p :: before => rev before ++ [Para (f p)]
                 | _ => w_doc w
                 end;
        w_log := w_log w |}).

(** Fail with the fault, if there is one. *)
Definition check (f : option exn) : M unit :=
  match f with
  | Some e => raise e
  | None => ret tt
  end.

Definition when (b : bool) (c : M unit) : M unit := if b then c else ret tt.

(** *** The calls of python-docx that write a text *)

(** The [ValueError] of lxml on a text that is not XML compatible. *)
Definition NOT_XML : exn :=
  {| exn_str := u "All strings must be XML compatible: Unicode or ASCII, no NULL bytes or control characters" |}.

Section Calls.

Variable env : Env.

(** What lxml raises on a piece it refuses: the piece is encoded first,
    which fails on a surrogate, and checked then. *)
Definition refusal (piece : str) : exn :=
  if existsb is_surrogate piece then encode_fault env piece else NOT_XML.

(** [doc.add_paragraph(text, style)] *)
Definition add_paragraph (text : str) (style : option str) : M unit :=
  match refused text with
  | None => add (Para (new_paragraph text style))
  | Some piece =>
      bind (add (Para (partial_paragraph text)))
           (fun _ => raise (refusal piece))
  end.

(** [doc.add_heading(text, level)]: a paragraph with the style of the
    level. *)
Definition add_heading (text : str) (level : nat) : M unit :=
  match refused text with
  | None => add (Heading text level)
  | Some piece =>
      bind (add (Para (partial_paragraph text)))
           (fun _ => raise (refusal piece))
  end.

(** [p.add_run(text)] on the paragraph added last, followed by the
    properties that the program sets on the new run: [r] is the run with
    them.  When the text is refused the run is there, with what was
    written, and the properties are not set. *)
Definition add_run (r : run) : M unit :=
  match refused (r_text r) with
  | None => update_last (push_run r)
  | Some piece =>
      bind (update_last (push_run (text_run (written (r_text r)))))
           (fun _ => raise (refusal piece))
  end.

Fixpoint add_runs (rs : list run) : M unit :=
  match rs with
  | [] => ret tt
  | r :: rs' => bind (add_run r) (fun _ => add_runs rs')
  end.

End Calls.

(** From [w] to [w'] the log has only grown, and only by calls that
    look at the file system. *)
Definition reads_only (w w' : world) : Prop :=
  exists evs, w_log w' = w_log w ++ evs /\ forallb is_read evs = true.

End Eff.

Import Eff.

Notation "x <- c ;; k" := (bind c (fun x => k))
  (at level 61, c at next level, right associativity).
Notation "c ;; k" := (bind c (fun _ => k))
  (at level 61, right associativity).

(* ================================================================== *)
(** ** [MarkdownToDocxTool._run] *)

Module Tool.

(** The patterns of [tools.py]. *)

(** [r'^\d+\.\s'] *)
Definition numbered_re : regex :=
  [Bol; Rep 1 true Digit; One (Lit (chr ".")); One Space].

(** [r'^!\[.*\]\(.*\)$'] *)
Definition image_test_re : regex :=
  [Bol; One (Lit (chr "!")); One (Lit (chr "[")); Rep 0 true Dot;
   One (Lit (chr "]")); One (Lit (chr "(")); Rep 0 true Dot;
   One (Lit (chr ")")); Eol].

(** The pattern of line 110: that of line 109 with a group around each
    of its two [.*]. *)
Definition image_re : regex :=
  [Bol; One (Lit (chr "!")); One (Lit (chr "["));
   GOpen; Rep 0 true Dot; GClose;
   One (Lit (chr "]")); One (Lit (chr "("));
   GOpen; Rep 0 true Dot; GClose;
   One (Lit (chr ")")); Eol].

(** The image pattern from the closing of its second group, and from the
    closing of its first group. *)
Definition image_tail : regex := [GClose; One (Lit (chr ")")); Eol].

Definition image_rest : regex :=
  [GClose; One (Lit (chr "]")); One (Lit (chr "("));
   GOpen; Rep 0 true Dot] ++ image_tail.

(** [r'\*\*(.*?)\*\*'] *)
Definition bold_pattern : regex :=
  [One (Lit (chr "*")); One (Lit (chr "*"));
   GOpen; Rep 0 false Dot; GClose;
   One (Lit (chr "*")); One (Lit (chr "*"))].

(** [r'\*(.*?)\*'] *)
Definition italic_pattern : regex :=
  [One (Lit (chr "*")); GOpen; Rep 0 false Dot; GClose; One (Lit (chr "*"))].

(** [r'`(.*?)`'] *)
Definition code_inline_pattern : regex :=
  [One (Lit (chr "`")); GOpen; Rep 0 false Dot; GClose; One (Lit (chr "`"))].

Definition COURIER : str := u "Courier New".

(** The tag of an entry of [all_matches]. *)
Inductive fmt := Bold | Italic | Code.

Definition is_bold (x : fmt * rmatch) : bool :=
  match fst x with Bold => true | _ => false end.

(** [list.sort(key=...)] is stable: an entry goes before the first one
    whose key is not smaller. *)
Fixpoint insert_by_start (x : fmt * rmatch) (l : list (fmt * rmatch))
  : list (fmt * rmatch) :=
  match l with
  | [] => [x]
  | y :: l' =>
      if m_start (snd x) <=? m_start (snd y) then x :: l
      else y :: insert_by_start x l'
  end.

Definition sort_by_start (l : list (fmt * rmatch)) : list (fmt * rmatch) :=
  fold_right insert_by_start [] l.

(** The local variables of the loop over the lines. *)
Record pstate := { code_block : bool; code_content : list str }.

Section Converter.

Variable uni_decimal : N -> bool.
Variable env : Env.

Local Abbreviation re_match := (Re.re_match uni_decimal).
Local Abbreviation re_sub := (Re.re_sub uni_decimal).
Local Abbreviation finditer := (Re.finditer uni_decimal).

(** *** Inline formatting of a paragraph (lines 156-204) *)

(** [any(m[1].start() <= match.start() < m[1].end()
         for m in all_matches if m[0] == 'bold')] *)
Definition in_bold (acc : list (fmt * rmatch)) (m : rmatch) : bool :=
  existsb (fun b => (m_start (snd b) <=? m_start m)
                    && (m_start m <? m_end (snd b)))
          (filter is_bold acc).

(** The loop over the italic matches: one that starts inside a bold match
    found before is skipped. *)
Definition keep_italics (italics : list rmatch) (acc : list (fmt * rmatch))
  : list (fmt * rmatch) :=
  fold_left (fun acc m => if negb (in_bold acc m)
                          then acc ++ [(Italic, m)] else acc)
            italics acc.

Definition all_matches (text : str) : list (fmt * rmatch) :=
  let acc := map (pair Bold) (finditer bold_pattern text) in
  let acc := keep_italics (finditer italic_pattern text) acc in
  let acc := acc ++ map (pair Code) (finditer code_inline_pattern text) in
  sort_by_start acc.

(** The run added for a match. *)
Definition styled_run (f : fmt) (t : str) : run :=
  match f with
  | Bold =>
      {| r_text := t; r_bold := true; r_italic := false; r_font := None;
         r_size := None; r_picture := None |}
  | Italic =>
      {| r_text := t; r_bold := false; r_italic := true; r_font := None;
         r_size := None; r_picture := None |}
  | Code =>
      {| r_text := t; r_bold := false; r_italic := false;
         r_font := Some COURIER; r_size := None; r_picture := None |}
  end.

(** The loop over the sorted matches and the text that remains. *)
Fixpoint emit_runs (text : str) (ms : list (fmt * rmatch)) (current_pos : nat)
  : list run :=
  match ms with
  | [] =>
      if current_pos <? length text
      then [text_run (skipn current_pos text)] else []
  | (format_type, m) :: ms' =>
      (if current_pos <? m_start m
       then [text_run (slice text current_pos (m_start m))] else [])
      ++ styled_run format_type (group m 1)
      :: emit_runs text ms' (m_end m)
  end.

Definition paragraph_runs (text : str) : list run :=
  match all_matches text with
  | [] => [text_run text]
  | ms => emit_runs text ms 0
  end.

(** The paragraph is added empty (line 154) and the runs are added to it
    one after the other. *)
Definition do_paragraph (line : str) : M unit :=
  add_paragraph env [] None ;;
  add_runs env (paragraph_runs line).

(** *** Images (lines 109-136) *)

Definition CHARTS_REL : str := u "../charts/".
Definition CHARTS_OUT : str := u "outputs/charts/".

(** The path that is looked up. *)
Definition resolve (img_path : str) : str :=
  if startswith CHARTS_REL img_path
  then Str.replace CHARTS_REL CHARTS_OUT img_path
  else img_path.

Definition not_found_text (alt_text img_path : str) : str :=
  u "[Image: " ++ alt_text ++ u " - File not found: " ++ img_path ++ u "]".

Definition not_loaded_text (alt_text : str) (img_error : exn) : str :=
  u "[Image: " ++ alt_text ++ u " - Could not load: " ++ exn_str img_error
  ++ u "]".

Definition picture_paragraph : paragraph :=
  {| p_style := None; p_alignment := Some CENTER; p_runs := [text_run []] |}.

Definition with_picture (img_path : str) (p : paragraph) : paragraph :=
  {| p_style := p_style p; p_alignment := p_alignment p;
     p_runs := map (fun r =>
                 {| r_text := r_text r; r_bold := r_bold r;
                    r_italic := r_italic r; r_font := r_font r;
                    r_size := r_size r; r_picture := Some (img_path, 6) |})
               (p_runs p) |}.

Definition caption_paragraph (alt_text : str) : paragraph :=
  {| p_style := None; p_alignment := Some CENTER;
     p_runs := [ {| r_text := alt_text; r_bold := false; r_italic := true;
                    r_font := None; r_size := Some 10; r_picture := None |} ] |}.

(** Lines 130-132 on the paragraph of the caption: it is centred, and its
    first run gets size 10 and italics. *)
Definition as_caption (p : paragraph) : paragraph :=
  {| p_style := p_style p; p_alignment := Some CENTER;
     p_runs := match p_runs p with
               | r :: rs =>
                   {| r_text := r_text r; r_bold := r_bold r;
                      r_italic := true; r_font := r_font r;
                      r_size := Some 10; r_picture := r_picture r |} :: rs
               | [] => []
               end |}.

Definition nonempty {A} (l : list A) : bool :=
  match l with [] => false | _ => true end.

Definition do_image (line : str) : M unit :=
  match re_match image_re line with
  | None => ret tt
  | Some m =>
      let alt_text := group m 1 in
      let img_path := resolve (group m 2) in
      log (EExists img_path) ;;
      if path_exists env img_path then
        try_except
          (add (Para picture_paragraph) ;;
           log (EAddPicture img_path) ;;
           check (picture_fault env img_path) ;;
           update_last (with_picture img_path) ;;
           when (nonempty alt_text)
                (add_paragraph env alt_text None ;; update_last as_caption))
          (fun img_error =>
             add_paragraph env (not_loaded_text alt_text img_error) None)
      else
        add_paragraph env (not_found_text alt_text img_path) None
  end.

(** *** Tables (lines 139-145) *)

Definition BAR : N := chr "|".
Definition DASH : str := u "-".

(** [cells = [cell.strip() for cell in line.split('|')[1:-1]]] *)
Definition table_cells (line : str) : list str :=
  map strip (Str.inner (split BAR line)).

(** [all(c == '-' or c == '---'
         for c in ''.join(cells).replace('-', ''))] *)
Definition is_separator (line : str) : bool :=
  forallb (fun c => Str.eqb [c] DASH || Str.eqb [c] (u "---"))
          (Str.replace DASH [] (join [] (table_cells line))).

Definition do_table (line : str) : M unit :=
  if is_separator line then ret tt     (* continue *)
  else add_paragraph env line None.

(** *** Code fences (lines 70-87) *)

Definition FENCE : str := u "```".

(** The run of a code block (lines 80-82). *)
Definition code_run (code_content : list str) : run :=
  {| r_text := join [NL] code_content; r_bold := false;
     r_italic := false; r_font := Some COURIER;
     r_size := Some 9; r_picture := None |}.

Definition code_paragraph (code_content : list str) : paragraph :=
  {| p_style := Some (u "No Spacing"); p_alignment := None;
     p_runs := [code_run code_content] |}.

Definition do_fence (st : pstate) : M pstate :=
  if negb (code_block st) then
    ret {| code_block := true; code_content := [] |}
  else
    when (nonempty (code_content st))
         (add (Para {| p_style := Some (u "No Spacing");
                       p_alignment := None; p_runs := [] |}) ;;
          add_run env (code_run (code_content st))) ;;
    ret {| code_block := false; code_content := code_content st |}.

(** *** The body of the loop (lines 68-204) *)

Definition is_some {A} (o : option A) : bool :=
  match o with Some _ => true | None => false end.

Definition step (st : pstate) (line : str) : M pstate :=
  if startswith FENCE line then do_fence st
  else if code_block st then
    ret {| code_block := true; code_content := code_content st ++ [line] |}
  else
    (if startswith (u "# ") line then add_heading env (skipn 2 line) 1
     else if startswith (u "## ") line then add_heading env (skipn 3 line) 2
     else if startswith (u "### ") line then add_heading env (skipn 4 line) 3
     else if startswith (u "#### ") line then add_heading env (skipn 5 line) 4
     else if startswith (u "- ") line || startswith (u "* ") line then
       add_paragraph env (skipn 2 line) (Some (u "List Bullet"))
     else if is_some (re_match numbered_re line) then
       add_paragraph env (re_sub numbered_re [] line) (Some (u "List Number"))
     else if is_some (re_match image_test_re line) then do_image line
     else if Str.contains [BAR] line && startswith [BAR] (strip line) then
       do_table line
     else if Str.eqb (strip line) [] then add_paragraph env [] None
     else do_paragraph line) ;;
    ret st.

(** [for line in lines: ...] *)
Fixpoint for_lines (lines : list str) (st : pstate) : M pstate :=
  match lines with
  | [] => ret st
  | line :: lines' => st' <- step st line ;; for_lines lines' st'
  end.

(** *** The end of the call (lines 206-212) *)

(** [os.makedirs(name, exist_ok=True)].  On the empty name [mkdir] fails
    with ENOENT and [os.path.isdir('')] is false, so the error is raised
    again; for another name the outcome is the file system's. *)
Definition ENOENT_empty : exn :=
  {| exn_str := u "[Errno 2] No such file or directory: ''" |}.

Definition makedirs_fault (name : str) : option exn :=
  match name with
  | [] => Some ENOENT_empty
  | _ => mkdir_fault env name
  end.

Definition os_makedirs (name : str) : M unit :=
  log (EMakedirs name) ;;
  check (makedirs_fault name).

(** [doc.save(path)] *)
Definition save (path : str) : M unit :=
  doc <- get_doc ;;
  log (ESave path doc) ;;
  check (save_fault env doc path).

Definition default_path : str :=
  u "outputs/reports/data_analysis_report_" ++ now_stamp env ++ u ".docx".

Definition success_text (output_path : str) : str :=
  u "Successfully converted markdown to DOCX: " ++ output_path.

Definition error_text (e : exn) : str :=
  u "Error converting markdown to DOCX: " ++ exn_str e.

Definition initial : pstate := {| code_block := false; code_content := [] |}.

(** The body of the [try] (lines 51-212). *)
Definition convert (markdown_content : str) (output_path : option str)
  : M str :=
  let output_path :=
    match output_path with
    | None => default_path
    | Some p => p
    end in
  set_doc [] ;;                                        (* Document() *)
  add_heading env (u "Data Analysis Report") 0 ;;
  check (markdown2_fault env markdown_content) ;;      (* html, unused *)
  for_lines (split NL markdown_content) initial ;;
  os_makedirs (Path.dirname output_path) ;;
  save output_path ;;
  ret (success_text output_path).

Definition _run (markdown_content : str) (output_path : option str) : M str :=
  try_except (convert markdown_content output_path)
             (fun e => ret (error_text e)).

End Converter.

End Tool.

Import Tool.

(* ================================================================== *)
(** ** The classifier as the specification words it *)

Module Spec.

Inductive block_type :=
| TFence
| TCodeLine
| THeading (level : nat)
| TBullet
| TNumbered
| TImage
| TTable
| TBlank
| TParagraph.

(** A fence marker: a line that starts with three backticks. *)
Definition is_fence (line : str) : bool := startswith FENCE line.

(** The number of fence markers among the lines. *)
Definition fences (lines : list str) : nat :=
  length (filter is_fence lines).

(** The characters the inline patterns use as delimiters. *)
Definition is_delimiter (c : N) : bool :=
  N.eqb c (chr "*") || N.eqb c (chr "`").

(** [out] is [line] with only delimiter characters removed: some of the
    stars and backticks are left out, everything else is there, in
    order. *)
Fixpoint stripped_from (line out : str) : bool :=
  match line with
  | [] => match out with [] => true | _ => false end
  | c :: line' =>
      (is_delimiter c && stripped_from line' out)
      || match out with
         | d :: out' => N.eqb c d && stripped_from line' out'
         | [] => false
         end
  end.


(** The local variables after a line. *)
Definition next_state (st : pstate) (line : str) : pstate :=
  if is_fence line then
    if code_block st
    then {| code_block := false; code_content := code_content st |}
    else {| code_block := true; code_content := [] |}
  else if code_block st
  then {| code_block := true; code_content := code_content st ++ [line] |}
  else st.

Section Classifier.

Variable uni_decimal : N -> bool.
Variable env : Env.

(** The path the document goes to. *)
Definition target (output_path : option str) : str :=
  match output_path with
  | None => default_path env
  | Some p => p
  end.

(** The world when the loop starts: a new document with the title. *)
Definition titled (w : world) : world :=
  {| w_doc := [Heading (u "Data Analysis Report") 0]; w_log := w_log w |}.

Definition logged (w : world) (evs : list event) : world :=
  {| w_doc := w_doc w; w_log := w_log w ++ evs |}.

(** Fence, then code-block state, then heading with the longest prefix
    first, bullet, numbered, image, table, blank, paragraph: the first rule
    that matches gives the type. *)
Definition classify (inside_code_block : bool) (line : str) : block_type :=
  if startswith FENCE line then TFence
  else if inside_code_block then TCodeLine
  else if startswith (u "#### ") line then THeading 4
  else if startswith (u "### ") line then THeading 3
  else if startswith (u "## ") line then THeading 2
  else if startswith (u "# ") line then THeading 1
  else if startswith (u "- ") line || startswith (u "* ") line then TBullet
  else if is_some (Re.re_match uni_decimal numbered_re line) then TNumbered
  else if is_some (Re.re_match uni_decimal image_test_re line) then TImage
  else if Str.contains [BAR] line && startswith [BAR] (strip line)
       then TTable
  else if Str.eqb (strip line) [] then TBlank
  else TParagraph.

(** What the converter does with a line of each type. *)
Definition perform (st : pstate) (line : str) (t : block_type) : M pstate :=
  match t with
  | TFence => do_fence env st
  | TCodeLine =>
      ret {| code_block := true; code_content := code_content st ++ [line] |}
  | THeading level => add_heading env (skipn (S level) line) level ;; ret st
  | TBullet =>
      add_paragraph env (skipn 2 line) (Some (u "List Bullet")) ;; ret st
  | TNumbered =>
      add_paragraph env (Re.re_sub uni_decimal numbered_re [] line)
                    (Some (u "List Number")) ;;
      ret st
  | TImage => do_image uni_decimal env line ;; ret st
  | TTable => do_table env line ;; ret st
  | TBlank => add_paragraph env [] None ;; ret st
  | TParagraph => do_paragraph uni_decimal env line ;; ret st
  end.

End Classifier.

End Spec.

(* ================================================================== *)
(** ** A concrete interpreter and file system *)

(** An interpreter whose only decimal digits are the ASCII ones, and a
    file system on which nothing exists and nothing fails. *)
Definition ascii_decimals : N -> bool := fun _ => false.

Definition quiet_env : Env :=
  {| now_stamp := u "20240101_120000";
     markdown2_fault := fun _ => None;
     path_exists := fun _ => false;
     picture_fault := fun _ => None;
     mkdir_fault := fun _ => None;
     save_fault := fun _ _ => None;
     encode_fault := fun _ => {| exn_str := u "surrogates not allowed" |} |}.

Definition empty_world : world := {| w_doc := []; w_log := [] |}.

(** The vertical tab, a control character that python-docx refuses. *)
Definition VT : N := 11.

(* ================================================================== *)
(** ** The other function: [main.run] *)

Module Main.

(** [s.endswith(sep)] for a separator of one code point. *)
Definition endswith_chr (sep : N) (s : str) : bool :=
  match rev s with
  | c :: _ => N.eqb c sep
  | [] => false
  end.

(** [os.path.join(a, *p)] (posixpath). *)
Definition join_step (path b : str) : str :=
  if startswith [Path.SEP] b then b
  else if match path with [] => true | _ => endswith_chr Path.SEP path end
       then path ++ b
       else path ++ [Path.SEP] ++ b.

Definition join (a : str) (p : list str) : str := fold_left join_step p a.

(** The [file_path] that [run] passes to the crew (main.py lines 12-13),
    from [os.path.abspath(__file__)]. *)
Definition data_path (abs_file : str) : str :=
  let current_dir := Path.dirname abs_file in
  join current_dir [u "data"; u "data.csv"].

End Main.

(* ================================================================== *)
(** ** Notions for the further properties *)

Module Notions.


(** The entries are in the order of their starts. *)
Fixpoint sorted_by_start (l : list (fmt * rmatch)) : bool :=
  match l with
  | [] => true
  | x :: l' =>
      match l' with
      | [] => true
      | y :: _ => (m_start (snd x) <=? m_start (snd y)) && sorted_by_start l'
      end
  end.

(** The look-ups of one pass: each picture is looked up, and it is loaded
    right after the look-up exactly when the look-up has found it. *)
Inductive guarded_reads (found : str -> bool) : list event -> Prop :=
| reads_none : guarded_reads found []
| reads_miss (p : str) (rest : list event) :
    found p = false -> guarded_reads found rest ->
    guarded_reads found (EExists p :: rest)
| reads_hit (p : str) (rest : list event) :
    found p = true -> guarded_reads found rest ->
    guarded_reads found (EExists p :: EAddPicture p :: rest).

Definition TITLE : element := Heading (u "Data Analysis Report") 0.

(** The errors of the picture loader have texts that python-docx
    accepts. *)
Definition loader_errors_accepted (env : Env) : Prop :=
  forall p e, picture_fault env p = Some e ->
              xml_compatible (exn_str e) = true.

End Notions.

Import Notions.

(** A file system on which every picture exists and loads, and one on
    which every picture exists and none loads. *)
Definition pictures_env : Env :=
  {| now_stamp := u "20240101_120000";
     markdown2_fault := fun _ => None;
     path_exists := fun _ => true;
     picture_fault := fun _ => None;
     mkdir_fault := fun _ => None;
     save_fault := fun _ _ => None;
     encode_fault := fun _ => {| exn_str := u "surrogates not allowed" |} |}.

Definition broken_pictures_env : Env :=
  {| now_stamp := u "20240101_120000";
     markdown2_fault := fun _ => None;
     path_exists := fun _ => true;
     picture_fault := fun _ => Some {| exn_str := u "not an image" |};
     mkdir_fault := fun _ => None;
     save_fault := fun _ _ => None;
     encode_fault := fun _ => {| exn_str := u "surrogates not allowed" |} |}.

(* ================================================================== *)
(** ** Properties *)

(** *** Strings *)

Lemma startswith_app (a s : str) : startswith a (a ++ s) = true.
Proof.
  induction a as [|c a IH]; simpl; [reflexivity|].
  now rewrite N.eqb_refl.
Qed.

Lemma startswith_split (a s : str) :
  startswith a s = true -> s = a ++ skipn (length a) s.
Proof.
  revert s; induction a as [|c a IH]; intros s H; simpl in *.
  - reflexivity.
  - destruct s as [|d s]; [discriminate|].
    apply andb_true_iff in H as [Hc Hs].
    apply N.eqb_eq in Hc; subst d.
    simpl. f_equal. now apply IH.
Qed.

Lemma startswith_head_differs (x : N) (p : str) (c : N) (s : str) :
  N.eqb x c = false -> startswith (x :: p) (c :: s) = false.
Proof. intros H. simpl. now rewrite H. Qed.

(** Two prefixes of one string are comparable. *)
Lemma startswith_comparable (a b s : str) :
  startswith a s = true -> startswith b s = true ->
  startswith a b = true \/ startswith b a = true.
Proof.
  revert b s; induction a as [|c a IH]; intros b s Ha Hb; simpl.
  - now left.
  - destruct b as [|d b]; [now right|].
    destruct s as [|e s]; [discriminate|].
    simpl in Ha, Hb.
    apply andb_true_iff in Ha as [Hc Ha].
    apply andb_true_iff in Hb as [Hd Hb].
    apply N.eqb_eq in Hc, Hd; subst c d.
    simpl; rewrite N.eqb_refl; simpl.
    exact (IH _ _ Ha Hb).
Qed.

(** Two literal prefixes, neither a prefix of the other, never both start
    a string. *)
(** *** The calls of python-docx *)

Lemma break_is_xml (c : N) : is_break c = true -> xml_char c = true.
Proof.
  unfold is_break, xml_char. intros H.
  apply orb_true_iff in H as [H|H]; [|now rewrite H, !orb_true_r].
  apply orb_true_iff in H as [H|H]; now rewrite H, ?orb_true_r.
Qed.

Lemma compatible_app (a b : str) :
  xml_compatible (a ++ b) = xml_compatible a && xml_compatible b.
Proof. apply forallb_app. Qed.

(** A text is written whole exactly when all its characters are
    accepted. *)
Lemma write_pieces_whole (t : str) :
  forall piece,
    xml_compatible piece = true -> xml_compatible t = true ->
    write_pieces t piece = (piece ++ t, None).
Proof.
  induction t as [|c t IH]; intros piece Hp Ht; cbn [write_pieces].
  - now rewrite Hp, app_nil_r.
  - cbn [xml_compatible forallb] in Ht. apply andb_true_iff in Ht as [Hc Ht].
    destruct (is_break c).
    + rewrite Hp, (IH [] eq_refl Ht). reflexivity.
    + rewrite IH; [now rewrite <- app_assoc | | exact Ht].
      rewrite compatible_app, Hp. cbn [xml_compatible forallb].
      now rewrite Hc.
Qed.

Lemma write_pieces_refuses (t : str) :
  forall piece,
    xml_compatible piece && xml_compatible t = false ->
    exists bad, snd (write_pieces t piece) = Some bad
                /\ xml_compatible bad = false.
Proof.
  induction t as [|c t IH]; intros piece H; cbn [write_pieces].
  - cbn [xml_compatible forallb] in H. rewrite andb_true_r in H.
    rewrite H. now exists piece.
  - destruct (is_break c) eqn:Hb.
    + destruct (xml_compatible piece) eqn:Hp; [|now exists piece].
      cbn [xml_compatible forallb andb] in H.
      rewrite (break_is_xml _ Hb) in H. cbn [andb] in H.
      destruct (IH [] H) as (bad & Hbad & Hno).
      destruct (write_pieces t []) as [rest r]. cbn [snd] in *.
      now exists bad.
    + apply IH. rewrite compatible_app. cbn [xml_compatible forallb] in *.
      rewrite andb_true_r, <- andb_assoc. exact H.
Qed.

Lemma refused_compatible (t : str) :
  refused t = None <-> xml_compatible t = true.
Proof.
  unfold refused. split; intros H.
  - destruct (xml_compatible t) eqn:E; [reflexivity|].
    destruct (@write_pieces_refuses t [] E) as (bad & Hbad & _).
    rewrite Hbad in H. discriminate.
  - now rewrite write_pieces_whole.
Qed.

Lemma written_whole (t : str) : xml_compatible t = true -> written t = t.
Proof. intros H. unfold written. now rewrite write_pieces_whole. Qed.

Lemma update_last_app (f : paragraph -> paragraph) (d : document)
      (p : paragraph) (l : list event) :
  update_last f {| w_doc := d ++ [Para p]; w_log := l |}
  = (Ok tt, {| w_doc := d ++ [Para (f p)]; w_log := l |}).
Proof.
  unfold update_last. cbn [w_doc w_log].
  rewrite rev_app_distr. cbn [rev app]. now rewrite rev_involutive.
Qed.

Section CallFacts.

Variable env : Env.

Lemma add_paragraph_ok (text : str) (style : option str) :
  xml_compatible text = true ->
  add_paragraph env text style = add (Para (new_paragraph text style)).
Proof.
  intros H. apply refused_compatible in H. unfold add_paragraph.
  now rewrite H.
Qed.

Lemma add_heading_ok (text : str) (level : nat) :
  xml_compatible text = true ->
  add_heading env text level = add (Heading text level).
Proof.
  intros H. apply refused_compatible in H. unfold add_heading.
  now rewrite H.
Qed.

Lemma add_run_ok (r : run) :
  xml_compatible (r_text r) = true ->
  add_run env r = update_last (push_run r).
Proof.
  intros H. apply refused_compatible in H. unfold add_run.
  now rewrite H.
Qed.

(** Runs with accepted texts all go to the paragraph added last. *)
Lemma add_runs_ok (rs : list run) :
  forallb (fun r => xml_compatible (r_text r)) rs = true ->
  forall d p l,
    add_runs env rs {| w_doc := d ++ [Para p]; w_log := l |}
    = (Ok tt,
       {| w_doc := d ++ [Para {| p_style := p_style p;
                                 p_alignment := p_alignment p;
                                 p_runs := p_runs p ++ rs |}];
          w_log := l |}).
Proof.
  induction rs as [|r rs IH]; intros H d p l.
  - cbn [add_runs]. unfold ret. rewrite app_nil_r. now destruct p.
  - cbn [forallb] in H. apply andb_true_iff in H as [Hr Hrs].
    cbn [add_runs]. unfold bind. rewrite (add_run_ok _ Hr), update_last_app.
    rewrite (IH Hrs). unfold push_run. cbn [p_style p_alignment p_runs].
    now rewrite <- app_assoc.
Qed.

(** Whatever the text, a call appends one element and leaves the log. *)
Lemma add_paragraph_effect (text : str) (style : option str) (w : world) :
  exists o e,
    add_paragraph env text style w
    = (o, {| w_doc := w_doc w ++ [e]; w_log := w_log w |})
    /\ (xml_compatible text = true -> o = Ok tt).
Proof.
  unfold add_paragraph.
  destruct (refused text) as [piece|] eqn:E.
  - do 2 eexists. split; [reflexivity|]. intros H.
    apply refused_compatible in H. congruence.
  - do 2 eexists. split; reflexivity.
Qed.

Lemma add_heading_effect (text : str) (level : nat) (w : world) :
  exists o e,
    add_heading env text level w
    = (o, {| w_doc := w_doc w ++ [e]; w_log := w_log w |})
    /\ (xml_compatible text = true -> o = Ok tt).
Proof.
  unfold add_heading.
  destruct (refused text) as [piece|] eqn:E.
  - do 2 eexists. split; [reflexivity|]. intros H.
    apply refused_compatible in H. congruence.
  - do 2 eexists. split; reflexivity.
Qed.

(** Whatever the texts, runs change the paragraph added last and nothing
    else. *)
Lemma add_runs_effect (rs : list run) :
  forall d p l,
    exists o p',
      add_runs env rs {| w_doc := d ++ [Para p]; w_log := l |}
      = (o, {| w_doc := d ++ [Para p']; w_log := l |}).
Proof.
  induction rs as [|r rs IH]; intros d p l.
  - now exists (Ok tt), p.
  - cbn [add_runs]. unfold bind, add_run.
    destruct (refused (r_text r)) as [piece|].
    + unfold bind. rewrite update_last_app. unfold raise.
      now do 2 eexists.
    + rewrite update_last_app. apply IH.
Qed.

End CallFacts.

Ltac clash H1 H2 :=
  let X := fresh in
  destruct (startswith_comparable _ _ _ H1 H2) as [X|X];
  vm_compute in X; discriminate X.

Section Classification.

Variable uni_decimal : N -> bool.
Variable env : Env.

Local Abbreviation step := (Tool.step uni_decimal env).
Local Abbreviation classify := (Spec.classify uni_decimal).
Local Abbreviation perform := (Spec.perform uni_decimal env).

Lemma step_performs (st : pstate) (line : str) :
  step st line = perform st line (classify (code_block st) line).
Proof.
  unfold Tool.step, Spec.classify.
  destruct (startswith FENCE line); [reflexivity|].
  destruct (code_block st); [reflexivity|].
  destruct (startswith (u "# ") line) eqn:H1;
  destruct (startswith (u "## ") line) eqn:H2;
  destruct (startswith (u "### ") line) eqn:H3;
  destruct (startswith (u "#### ") line) eqn:H4;
  try clash H1 H2; try clash H1 H3; try clash H1 H4;
  try clash H2 H3; try clash H2 H4; try clash H3 H4;
  try reflexivity.
  destruct (startswith (u "- ") line || startswith (u "* ") line);
    [reflexivity|].
  destruct (is_some (Re.re_match uni_decimal numbered_re line));
    [reflexivity|].
  destruct (is_some (Re.re_match uni_decimal image_test_re line));
    [reflexivity|].
  destruct (Str.contains [BAR] line && startswith [BAR] (strip line));
    [reflexivity|].
  destruct (Str.eqb (strip line) []); reflexivity.
Qed.

(** C3. Every line gets the one block type of the first rule that matches
    in the order fence, code-block state, heading, bullet, numbered, image,
    table, blank, paragraph, and the converter does with the line what
    belongs to that type; a line that begins with four hashes and a space is
    a heading of level 4 outside a code block, not one of level 1: the call
    made for it is [add_heading] with level 4, which adds that heading, or
    raises when python-docx refuses the text. *)
Theorem classification_precedence :
  (forall (st : pstate) (line : str),
      step st line = perform st line (classify (code_block st) line))
  /\ (forall (rest : str) (code_content : list str),
        classify false (u "#### " ++ rest) = Spec.THeading 4
        /\ forall w,
            step {| code_block := false; code_content := code_content |}
                 (u "#### " ++ rest) w
            = match refused rest with
              | None =>
                  (Ok {| code_block := false; code_content := code_content |},
                   {| w_doc := w_doc w ++ [Heading rest 4];
                      w_log := w_log w |})
              | Some piece =>
                  (Raise (refusal env piece),
                   {| w_doc := w_doc w ++ [Para (partial_paragraph rest)];
                      w_log := w_log w |})
              end).
Proof.
  split; [exact step_performs|].
  intros rest cc.
  assert (Hc : classify false (u "#### " ++ rest) = Spec.THeading 4)
    by reflexivity.
  split; [exact Hc|].
  intros w. rewrite step_performs. simpl code_block. rewrite Hc.
  cbn [Spec.perform]. change (skipn 5 (u "#### " ++ rest)) with rest.
  unfold bind, add_heading.
  destruct (refused rest); reflexivity.
Qed.

End Classification.

(** *** The matcher *)

Section MatcherFacts.

Variable uni_decimal : N -> bool.

Local Abbreviation attempt := (Re.attempt uni_decimal).
Local Abbreviation scan := (Re.scan uni_decimal).
Local Abbreviation finditer := (Re.finditer uni_decimal).

(** A repetition ends where its continuation ends. *)
Lemma rep_from_continuation (R : Type) (ok : N -> bool) (greedy : bool)
      (k : nat -> str -> option R) (Q : nat -> R -> Prop) :
  (forall pos s r, k pos s = Some r -> Q pos r) ->
  (forall pos r, Q (S pos) r -> Q pos r) ->
  forall s lo pos r, rep ok greedy k lo pos s = Some r -> Q pos r.
Proof.
  intros Hk Hstep.
  induction s as [|c s IH]; intros lo pos r H; simpl in H.
  - destruct lo; [eauto | discriminate].
  - destruct lo as [|lo].
    + destruct greedy; unfold or_else in H.
      * destruct (ok c).
        -- destruct (rep ok true k 0 (S pos) s) eqn:E.
           ++ inversion H; subst. eauto.
           ++ eauto.
        -- eauto.
      * destruct (k pos (c :: s)) eqn:E.
        -- inversion H; subst. eauto.
        -- destruct (ok c); [eauto | discriminate].
    + destruct (ok c); [eauto | discriminate].
Qed.

(** A match does not end before it starts. *)
Lemma attempt_end_ge (p : regex) :
  forall pos s g r, attempt p pos s g = Some r -> pos <= fst r.
Proof.
  induction p as [|n p IH]; intros pos s g r H; simpl in H.
  - inversion H; subst; simpl; lia.
  - destruct n as [a|lo greedy a| | | |].
    + destruct s as [|c s]; [discriminate|].
      destruct (atom_ok uni_decimal a c); [|discriminate].
      apply IH in H. lia.
    + revert H.
      apply (@rep_from_continuation _ _ _ _ (fun pos r => pos <= fst r)).
      * intros pos' s' r' H'. now apply IH in H'.
      * intros; lia.
    + now apply IH in H.
    + now apply IH in H.
    + destruct (Nat.eqb pos 0); [now apply IH in H | discriminate].
    + destruct (at_end s); [now apply IH in H | discriminate].
Qed.

(** A pattern that begins with a character consumes it. *)
Lemma attempt_one_end_gt (a : atom) (p : regex) pos s g r :
  attempt (One a :: p) pos s g = Some r -> pos < fst r.
Proof.
  simpl. destruct s as [|c s]; [discriminate|].
  destruct (atom_ok uni_decimal a c); [|discriminate].
  intros H. apply attempt_end_ge in H. lia.
Qed.

Lemma attempt_one_head (a : atom) (p : regex) pos s g r :
  attempt (One a :: p) pos s g = Some r ->
  exists c s', s = c :: s' /\ atom_ok uni_decimal a c = true.
Proof.
  simpl. destruct s as [|c s]; [discriminate|].
  destruct (atom_ok uni_decimal a c) eqn:E; [|discriminate].
  intros _. now exists c, s.
Qed.

(** Every match of a scan comes from an attempt at its start. *)
Lemma scan_in (p : regex) (text : str) (m : rmatch) :
  forall s pos skip,
    In m (scan p text pos s skip) ->
    exists s' r, attempt p (m_start m) s' no_marks = Some r
                 /\ m = mk_match text (m_start m) r.
Proof.
  induction s as [|c s IH]; intros pos skip H.
  - destruct skip; simpl in H; [|contradiction].
    destruct (attempt p pos [] no_marks) as [r|] eqn:E; [|contradiction].
    destruct H as [H|[]]. subst m. simpl. now exists [], r.
  - destruct skip; simpl in H.
    + destruct (attempt p pos (c :: s) no_marks) as [r|] eqn:E.
      * destruct H as [H|H].
        -- subst m. simpl. now exists (c :: s), r.
        -- eauto.
      * eauto.
    + eauto.
Qed.

(** A pattern that begins with a character the text does not hold has no
    match. *)
Lemma scan_without_head (x : N) (p : regex) (text : str) :
  forall s pos skip,
    ~ In x s -> scan (One (Lit x) :: p) text pos s skip = [].
Proof.
  induction s as [|c s IH]; intros pos skip Hx.
  - destruct skip; reflexivity.
  - assert (Hc : N.eqb x c = false).
    { apply N.eqb_neq. intros ->. apply Hx. now left. }
    assert (Hs : ~ In x s) by (intros Hin; apply Hx; now right).
    destruct skip; simpl; [rewrite Hc|]; now apply IH.
Qed.

(** A pattern anchored at the start fails when the first character of the
    text is not one its first item takes. *)
Lemma re_match_bol_one (a : atom) (p : regex) (c : N) (rest : str) :
  atom_ok uni_decimal a c = false ->
  Re.re_match uni_decimal (Bol :: One a :: p) (c :: rest) = None.
Proof.
  intros H. unfold Re.re_match. cbn [Re.attempt Nat.eqb]. now rewrite H.
Qed.

Lemma re_match_bol_rep (a : atom) (lo : nat) (greedy : bool) (p : regex)
      (c : N) (rest : str) :
  atom_ok uni_decimal a c = false ->
  Re.re_match uni_decimal (Bol :: Rep (S lo) greedy a :: p) (c :: rest) = None.
Proof.
  intros H. unfold Re.re_match. cbn [Re.attempt Nat.eqb rep]. now rewrite H.
Qed.

Lemma re_match_bol_one_head (a : atom) (p : regex) (text : str) (m : rmatch) :
  Re.re_match uni_decimal (Bol :: One a :: p) text = Some m ->
  exists c rest, text = c :: rest /\ atom_ok uni_decimal a c = true.
Proof.
  unfold Re.re_match. cbn [Re.attempt Nat.eqb].
  destruct text as [|c rest]; [discriminate|].
  destruct (atom_ok uni_decimal a c) eqn:E; [|discriminate].
  intros _. now exists c, rest.
Qed.

(** Groups do not change where a pattern matches. *)
Lemma rep_ends_agree (R1 R2 : Type) (ok : N -> bool) (greedy : bool)
      (k1 : nat -> str -> option R1) (k2 : nat -> str -> option R2)
      (f1 : R1 -> nat) (f2 : R2 -> nat) :
  (forall pos s, option_map f1 (k1 pos s) = option_map f2 (k2 pos s)) ->
  forall s lo pos,
    option_map f1 (rep ok greedy k1 lo pos s)
    = option_map f2 (rep ok greedy k2 lo pos s).
Proof.
  intros Hk.
  induction s as [|c s IH]; intros lo pos; simpl.
  - destruct lo; [apply Hk | reflexivity].
  - destruct lo as [|lo].
    + pose proof (Hk pos (c :: s)) as Hhere.
      pose proof (IH 0 (S pos)) as Hmore.
      destruct greedy, (ok c); unfold or_else;
        destruct (k1 pos (c :: s)), (k2 pos (c :: s));
        try discriminate Hhere;
        destruct (rep ok _ k1 0 (S pos) s), (rep ok _ k2 0 (S pos) s);
        try discriminate Hmore; simpl in *; congruence.
    + destruct (ok c); [apply IH | reflexivity].
Qed.

Lemma attempt_erase (p : regex) :
  forall pos s g g',
    option_map fst (attempt p pos s g)
    = option_map fst (attempt (Re.erase p) pos s g').
Proof.
  induction p as [|n p IH]; intros pos s g g'; [reflexivity|].
  destruct n as [a|lo greedy a| | | |]; cbn [Re.erase Re.keeps filter Re.attempt].
  - destruct s as [|c s]; [reflexivity|].
    destruct (atom_ok uni_decimal a c); [apply IH | reflexivity].
  - apply rep_ends_agree. intros pos' s'. apply IH.
  - apply IH.
  - apply IH.
  - destruct (Nat.eqb pos 0); [apply IH | reflexivity].
  - destruct (at_end s); [apply IH | reflexivity].
Qed.

Lemma re_match_erase (p : regex) (text : str) :
  is_some (Re.re_match uni_decimal (Re.erase p) text)
  = is_some (Re.re_match uni_decimal p text).
Proof.
  unfold Re.re_match.
  pose proof (attempt_erase p 0 text no_marks no_marks) as H.
  destruct (attempt p 0 text no_marks),
           (attempt (Re.erase p) 0 text no_marks);
    simpl in *; congruence.
Qed.

(** A greedy repetition stops where the rest of the pattern matches and
    matches nowhere further on. *)
Lemma rep_greedy_stop (R : Type) (ok : N -> bool)
      (k : nat -> str -> option R) :
  forall r pos,
    (forall b r', b <> [] -> r = b ++ r' -> k (pos + length b) r' = None) ->
    rep ok true k 0 pos r = k pos r.
Proof.
  induction r as [|c r IH]; intros pos Hdeep; [reflexivity|].
  cbn [rep]. destruct (ok c); [|reflexivity].
  rewrite IH.
  - assert (Hnext : k (S pos) r = None).
    { replace (S pos) with (pos + length [c]) by (simpl; lia).
      apply Hdeep; [discriminate | reflexivity]. }
    now rewrite Hnext.
  - intros b r' Hb Hr.
    replace (S pos + length b) with (pos + length (c :: b)) by (simpl; lia).
    apply Hdeep; [discriminate | now rewrite Hr].
Qed.

Lemma rep_greedy_take (R : Type) (ok : N -> bool)
      (k : nat -> str -> option R) (r : str) (res : R) :
  forall a pos,
    forallb ok a = true ->
    rep ok true k 0 (pos + length a) r = Some res ->
    rep ok true k 0 pos (a ++ r) = Some res.
Proof.
  induction a as [|c a IH]; intros pos Hok Hr.
  - simpl in *. now rewrite Nat.add_0_r in Hr.
  - simpl in Hok. apply andb_true_iff in Hok as [Hc Ha].
    cbn [app rep]. rewrite Hc.
    rewrite (IH (S pos) Ha); [reflexivity|].
    now replace (S pos + length a) with (pos + length (c :: a))
      by (simpl; lia).
Qed.

Lemma rep_greedy_split (R : Type) (ok : N -> bool)
      (k : nat -> str -> option R) (a r : str) (pos : nat) (res : R) :
  forallb ok a = true ->
  k (pos + length a) r = Some res ->
  (forall b r', b <> [] -> r = b ++ r' ->
                k (pos + length a + length b) r' = None) ->
  rep ok true k 0 pos (a ++ r) = Some res.
Proof.
  intros Hok Hk Hdeep. apply rep_greedy_take; [exact Hok|].
  now rewrite rep_greedy_stop.
Qed.

End MatcherFacts.

(** *** Inline formatting *)

Lemma insert_by_start_in (x y : fmt * rmatch) (l : list (fmt * rmatch)) :
  In y (insert_by_start x l) <-> y = x \/ In y l.
Proof.
  induction l as [|z l IH]; simpl.
  - intuition.
  - destruct (m_start (snd x) <=? m_start (snd z)); simpl; rewrite ?IH;
      intuition.
Qed.

Lemma sort_by_start_in (y : fmt * rmatch) (l : list (fmt * rmatch)) :
  In y (sort_by_start l) <-> In y l.
Proof.
  induction l as [|x l IH]; simpl; [tauto|].
  rewrite insert_by_start_in, IH. intuition.
Qed.

Lemma kept_from (f : fmt) (m : rmatch) (ms : list rmatch) :
  forall acc,
    In (f, m) (keep_italics ms acc) ->
    In (f, m) acc \/ (f = Italic /\ In m ms).
Proof.
  unfold keep_italics.
  induction ms as [|m0 ms IH]; intros acc H; [now left|].
  cbn [fold_left] in H. apply IH in H.
  destruct H as [H|[Hf H]]; [|right; split; [exact Hf | now right]].
  destruct (negb (in_bold acc m0)); [|now left].
  apply in_app_or in H as [H|[H|[]]]; [now left|].
  inversion H; subst. right. split; [reflexivity | now left].
Qed.

Section Inline.

Variable uni_decimal : N -> bool.

Local Abbreviation finditer := (Re.finditer uni_decimal).
Local Abbreviation all_matches := (Tool.all_matches uni_decimal).
Local Abbreviation paragraph_runs := (Tool.paragraph_runs uni_decimal).

Lemma keep_italics_bolds (italics : list rmatch) :
  forall acc, filter is_bold (keep_italics italics acc) = filter is_bold acc.
Proof.
  unfold keep_italics.
  induction italics as [|m ms IH]; intros acc; simpl; [reflexivity|].
  rewrite IH. destruct (in_bold acc m); simpl; [reflexivity|].
  rewrite filter_app; simpl. now rewrite app_nil_r.
Qed.




(** A line without a star and without a backtick is one plain run. *)
Lemma plain_line_one_run (text : str) :
  ~ In (chr "*") text -> ~ In (chr "`") text ->
  paragraph_runs text = [text_run text]
  /\ para_text {| p_style := None; p_alignment := None;
                  p_runs := paragraph_runs text |} = text.
Proof.
  intros Hstar Htick.
  assert (H : all_matches text = []).
  { unfold Tool.all_matches, Re.finditer, bold_pattern, italic_pattern,
      code_inline_pattern.
    now rewrite !scan_without_head. }
  unfold Tool.paragraph_runs. rewrite H. split; [reflexivity|].
  unfold para_text. simpl. now rewrite app_nil_r.
Qed.

(** C2 at the paragraph [`a*b` c*d].  The code match on [`a*b`] and the
    italic match on [*b` c*] overlap; both are kept, and the text of the
    runs is [a*bb` cd], which holds the [b] twice and is not the line with
    delimiters removed. *)
Theorem overlapping_matches_repeat_text :
  Spec.classify uni_decimal false (u "`a*b` c*d") = Spec.TParagraph
  /\ all_matches (u "`a*b` c*d")
     = [ (Code, {| m_start := 0; m_end := 5; m_groups := [u "a*b"] |});
         (Italic, {| m_start := 2; m_end := 8; m_groups := [u "b` c"] |}) ]
  /\ map r_text (paragraph_runs (u "`a*b` c*d"))
     = [u "a*b"; u "b` c"; u "d"]
  /\ Spec.stripped_from
       (u "`a*b` c*d")
       (para_text {| p_style := None; p_alignment := None;
                     p_runs := paragraph_runs (u "`a*b` c*d") |})
     = false.
Proof. repeat split. Qed.

End Inline.

(** *** White space and the first character of a line *)

Lemma is_space_range (c : N) :
  is_space c = true -> (c <= 32 \/ 133 <= c)%N.
Proof.
  unfold is_space. intros H.
  repeat rewrite ?orb_true_iff, ?andb_true_iff, ?N.leb_le, ?N.eqb_eq in H.
  lia.
Qed.

(** A character of the printable ASCII range is not white space. *)
Lemma space_is_not (x c : N) :
  (32 < x < 133)%N -> is_space c = true -> N.eqb x c = false.
Proof.
  intros Hx Hc. apply is_space_range in Hc. apply N.eqb_neq. lia.
Qed.

Lemma lstrip_keeps_last (c : N) (l : str) :
  is_space c = false -> exists l', lstrip (l ++ [c]) = l' ++ [c].
Proof.
  intros Hc. induction l as [|d l IH]; simpl.
  - rewrite Hc. now exists [].
  - destruct (is_space d); [exact IH|]. now exists (d :: l).
Qed.

(** What [strip] leaves starts with the first character of the line, or
    the line starts with white space. *)
Lemma strip_head (x : N) (line : str) :
  startswith [x] (strip line) = true ->
  exists c rest, line = c :: rest /\ (c = x \/ is_space c = true).
Proof.
  destruct line as [|c rest]; [discriminate|].
  intros H. exists c, rest. split; [reflexivity|].
  destruct (is_space c) eqn:Hc; [now right|left].
  unfold strip in H. simpl lstrip in H. rewrite Hc in H.
  unfold rstrip in H. simpl rev in H.
  destruct (@lstrip_keeps_last c (rev rest) Hc) as [l' Hl]. rewrite Hl in H.
  rewrite rev_app_distr in H. simpl in H.
  rewrite andb_true_r in H. apply N.eqb_eq in H. now symmetry.
Qed.

(** *** Table rows *)

Lemma replace_one_by_nothing (x : N) (s : str) :
  Str.replace [x] [] s = filter (fun c => negb (N.eqb x c)) s.
Proof.
  unfold Str.replace.
  induction s as [|c s IH]; simpl; [reflexivity|].
  rewrite andb_true_r. destruct (N.eqb x c); simpl; now rewrite IH.
Qed.

Lemma join_nothing (parts : list str) : join [] parts = concat parts.
Proof.
  induction parts as [|p ps IH]; [reflexivity|].
  simpl. destruct ps as [|q ps]; [now rewrite app_nil_r|].
  now rewrite <- IH.
Qed.

Lemma forallb_concat (A : Type) (f : A -> bool) (ls : list (list A)) :
  forallb f (concat ls) = forallb (forallb f) ls.
Proof.
  induction ls as [|l ls IH]; simpl; [reflexivity|].
  now rewrite forallb_app, IH.
Qed.

Lemma only_dashes_left (d : N) (s : str) :
  forallb (fun c => Str.eqb [c] [d] || Str.eqb [c] [d; d; d])
          (filter (fun c => negb (N.eqb d c)) s)
  = forallb (N.eqb d) s.
Proof.
  induction s as [|c s IH]; [reflexivity|].
  cbn [filter forallb].
  destruct (N.eqb_spec d c) as [E|E]; cbn [negb]; [exact IH|].
  cbn [forallb Str.eqb]. rewrite andb_true_r, andb_false_r, orb_false_r.
  assert (Hcd : N.eqb c d = false) by (apply N.eqb_neq; congruence).
  now rewrite Hcd.
Qed.

(** The test of line 142 holds exactly when every cell is made of dashes
    only. *)
Lemma is_separator_dashes (line : str) :
  is_separator line = forallb (forallb (N.eqb (chr "-"))) (table_cells line).
Proof.
  unfold is_separator, DASH.
  change (u "-") with [chr "-"].
  change (u "---") with [chr "-"; chr "-"; chr "-"].
  rewrite replace_one_by_nothing, join_nothing, <- forallb_concat.
  apply only_dashes_left.
Qed.

Section Table.

Variable uni_decimal : N -> bool.
Variable env : Env.

Local Abbreviation step := (Tool.step uni_decimal env).

(** No decimal digit of the Unicode database is white space. *)
Hypothesis decimal_not_space :
  forall c, is_space c = true -> uni_decimal c = false.

Lemma space_not_decimal (c : N) :
  is_space c = true -> Re.is_decimal uni_decimal c = false.
Proof.
  intros Hc. unfold Re.is_decimal.
  destruct (N.ltb_spec c 128); [|now apply decimal_not_space].
  apply is_space_range in Hc.
  apply andb_false_iff.
  destruct (N.leb_spec 48 c); [right | now left].
  apply N.leb_gt. lia.
Qed.

(** A line whose first character is a bar or white space is none of
    fence, heading, bullet, numbered item, image. *)
Lemma bar_line_reaches_table (c : N) (rest : str) :
  c = BAR \/ is_space c = true ->
  startswith FENCE (c :: rest) = false
  /\ startswith (u "# ") (c :: rest) = false
  /\ startswith (u "## ") (c :: rest) = false
  /\ startswith (u "### ") (c :: rest) = false
  /\ startswith (u "#### ") (c :: rest) = false
  /\ startswith (u "- ") (c :: rest) = false
  /\ startswith (u "* ") (c :: rest) = false
  /\ Re.re_match uni_decimal numbered_re (c :: rest) = None
  /\ Re.re_match uni_decimal image_test_re (c :: rest) = None.
Proof.
  intros Hc.
  assert (Hlit : forall x, (32 < x < 133)%N -> x <> BAR -> N.eqb x c = false).
  { intros x Hx Hbar. destruct Hc as [->|Hc].
    - now apply N.eqb_neq.
    - now apply space_is_not. }
  assert (Hdec : Re.is_decimal uni_decimal c = false).
  { destruct Hc as [->|Hc]; [reflexivity | now apply space_not_decimal]. }
  repeat split;
    try (apply startswith_head_differs; apply Hlit;
         [vm_compute; split; reflexivity | vm_compute; discriminate]).
  - apply re_match_bol_rep. exact Hdec.
  - apply re_match_bol_one. change (N.eqb (chr "!") c = false). apply Hlit;
      [vm_compute; split; reflexivity | vm_compute; discriminate].
Qed.

(** What a table line does, by the cells as the code computes them (the
    trimmed pieces between the first and the last bar): outside a code
    block, a line that contains a bar and whose trimmed form starts with a
    bar adds nothing when each of these cells holds dashes only, and
    otherwise adds one paragraph with the line as it is, if python-docx
    accepts the line. *)
Lemma table_line_by_cells (st : pstate) (line : str) (w : world) :
  code_block st = false ->
  Str.contains [BAR] line = true ->
  startswith [BAR] (strip line) = true ->
  xml_compatible line = true ->
  step st line w
  = (Ok st,
     if forallb (forallb (N.eqb (chr "-"))) (table_cells line)
     then w
     else {| w_doc := w_doc w ++
                      [Para {| p_style := None; p_alignment := None;
                               p_runs := [text_run line] |}];
             w_log := w_log w |}).
Proof.
  intros Hcb Hbar Hstrip Hx.
  destruct (strip_head _ _ Hstrip) as (c & rest & Hline & Hc).
  destruct (bar_line_reaches_table rest Hc)
    as (F & H1 & H2 & H3 & H4 & B1 & B2 & Hn & Hi).
  rewrite <- Hline in *.
  unfold Tool.step.
  rewrite F, Hcb, H1, H2, H3, H4, B1, B2, Hn, Hi, Hbar, Hstrip.
  cbn [orb andb is_some].
  unfold do_table. rewrite is_separator_dashes.
  destruct (forallb (forallb (N.eqb (chr "-"))) (table_cells line)).
  - reflexivity.
  - rewrite add_paragraph_ok by exact Hx. rewrite Hline. reflexivity.
Qed.

(** C5. The claim fails on the code.  The line [|total: 5] contains a bar
    and starts with one, and it is no separator: it holds a word and a
    number.  The claim has it emitted with its text; the code takes the
    cells between the first and the last bar, finds none, and drops the
    line.  The line [|---| x] is dropped as well, for its one cell holds
    dashes only, whatever follows the last bar.  With a closing bar,
    [|total: 5|], the row is emitted as the claim says. *)
Theorem table_row_without_closing_bar_is_dropped
        (content : list str) (w : world) :
  let st := {| code_block := false; code_content := content |} in
  (Str.contains [BAR] (u "|total: 5") = true
   /\ startswith [BAR] (strip (u "|total: 5")) = true
   /\ table_cells (u "|total: 5") = []
   /\ step st (u "|total: 5") w = (Ok st, w))
  /\ (table_cells (u "|---| x") = [u "---"]
      /\ step st (u "|---| x") w = (Ok st, w))
  /\ step st (u "|total: 5|") w
     = (Ok st,
        {| w_doc := w_doc w ++
                    [Para {| p_style := None; p_alignment := None;
                             p_runs := [text_run (u "|total: 5|")] |}];
           w_log := w_log w |}).
Proof.
  intros st. repeat split.
Qed.

End Table.

(** *** Images *)

Section Image.

Variable uni_decimal : N -> bool.
Variable env : Env.

Local Abbreviation step := (Tool.step uni_decimal env).
Local Abbreviation for_lines := (Tool.for_lines uni_decimal env).
Local Abbreviation re_match := (Re.re_match uni_decimal).

(** A line the image pattern matches reaches the image branch. *)
Lemma image_line_reaches_branch (line : str) (m : rmatch) :
  re_match image_re line = Some m ->
  forall st, code_block st = false ->
             step st line = (do_image uni_decimal env line ;; ret st).
Proof.
  intros Hm st Hcb.
  assert (Htest : is_some (re_match image_test_re line) = true).
  { change image_test_re with (Re.erase image_re).
    now rewrite re_match_erase, Hm. }
  pose proof Hm as Hhead. unfold image_re in Hhead.
  apply re_match_bol_one_head in Hhead as (c & rest & -> & Hc).
  change (N.eqb (chr "!") c = true) in Hc. apply N.eqb_eq in Hc. subst c.
  unfold Tool.step. rewrite Hcb, Htest. unfold numbered_re.
  rewrite (@re_match_bol_rep uni_decimal Digit 0 true) by reflexivity.
  reflexivity.
Qed.

Lemma no_newline_dots (s : str) :
  ~ In NL s -> forallb (atom_ok uni_decimal Dot) s = true.
Proof.
  induction s as [|c s IH]; intros H; simpl; [reflexivity|].
  rewrite IH by (intros Hin; apply H; now right).
  destruct (N.eqb_spec c NL) as [->|]; [|reflexivity].
  exfalso. apply H. now left.
Qed.

Lemma slice_middle (a b c : str) :
  slice (a ++ b ++ c) (length a) (length a + length b) = b.
Proof.
  unfold slice. rewrite skipn_app, skipn_all, Nat.sub_diag. simpl.
  replace (length a + length b - length a) with (length b) by lia.
  rewrite firstn_app, firstn_all, Nat.sub_diag. simpl.
  now rewrite app_nil_r.
Qed.

Lemma image_rest_matches (path : str) (pos : nat) (g : marks) :
  ~ In NL path ->
  Re.attempt uni_decimal image_rest pos (u "](" ++ path ++ u ")") g
  = Some (S (pos + 2 + length path),
          mark_close (mark_open (mark_close g pos) (pos + 2))
                     (pos + 2 + length path)).
Proof.
  intros Hnl.
  change (u "](" ++ path ++ u ")")
    with (chr "]" :: chr "(" :: path ++ [chr ")"]).
  unfold image_rest, image_tail. cbn [app Re.attempt].
  change (atom_ok uni_decimal (Lit (chr "]")) (chr "]")) with true.
  change (atom_ok uni_decimal (Lit (chr "(")) (chr "(")) with true.
  cbv iota.
  replace (S (S pos)) with (pos + 2) by lia.
  apply rep_greedy_split.
  - now apply no_newline_dots.
  - reflexivity.
  - intros b r' Hb Hr.
    destruct b as [|c b]; [contradiction|].
    destruct b; [|destruct b; discriminate Hr].
    injection Hr as _ <-. reflexivity.
Qed.

Lemma image_rest_fails_further (path : str) (pos : nat) (g : marks)
      (b r' : str) :
  ~ In (chr "]") path ->
  b <> [] -> u "](" ++ path ++ u ")" = b ++ r' ->
  Re.attempt uni_decimal image_rest pos r' g = None.
Proof.
  intros Hpath Hb Hr.
  destruct r' as [|c r']; [reflexivity|].
  assert (Hc : N.eqb (chr "]") c = false).
  { apply N.eqb_neq. intros <-.
    destruct b as [|b0 b]; [contradiction|].
    change (u "](" ++ path ++ u ")")
      with (chr "]" :: chr "(" :: path ++ [chr ")"]) in Hr.
    injection Hr as _ Hr.
    destruct b as [|b1 b]; [discriminate Hr|].
    injection Hr as _ Hr.
    assert (Hin : In (chr "]") (path ++ [chr ")"])).
    { change (In 93%N (path ++ [41%N])). rewrite Hr.
      apply in_or_app. right. now left. }
    apply in_app_or in Hin as [Hin|[Hin|[]]]; [now apply Hpath|].
    discriminate Hin. }
  unfold image_rest, image_tail. cbn [app Re.attempt].
  change (atom_ok uni_decimal (Lit (chr "]")) c) with (N.eqb (chr "]") c).
  now rewrite Hc.
Qed.

(** On a line [![alt](path)] whose parts hold no newline and whose path
    holds no closing bracket, the groups of the image pattern are [alt]
    and [path]. *)
Lemma image_line_groups (alt path : str) :
  ~ In NL alt -> ~ In NL path -> ~ In (chr "]") path ->
  re_match image_re (u "![" ++ alt ++ u "](" ++ path ++ u ")")
  = Some {| m_start := 0;
            m_end := 5 + length alt + length path;
            m_groups := [alt; path] |}.
Proof.
  intros Halt Hpath Hbr.
  unfold Re.re_match.
  assert (H : Re.attempt uni_decimal image_re 0
                (u "![" ++ alt ++ u "](" ++ path ++ u ")") no_marks
              = Some (S (2 + length alt + 2 + length path),
                      mark_close
                        (mark_open (mark_close (mark_open no_marks 2)
                                               (2 + length alt))
                                   (2 + length alt + 2))
                        (2 + length alt + 2 + length path))).
  { change (u "![" ++ alt ++ u "](" ++ path ++ u ")")
      with (chr "!" :: chr "[" :: alt ++ (u "](" ++ path ++ u ")")).
    change image_re
      with (Bol :: One (Lit (chr "!")) :: One (Lit (chr "[")) :: GOpen
            :: Rep 0 true Dot :: image_rest).
    cbn [Re.attempt Nat.eqb].
    change (atom_ok uni_decimal (Lit (chr "!")) (chr "!")) with true.
    change (atom_ok uni_decimal (Lit (chr "[")) (chr "[")) with true.
    cbv iota.
    apply rep_greedy_split.
    - now apply no_newline_dots.
    - apply image_rest_matches. exact Hpath.
    - intros b r' Hb Hr.
      now apply image_rest_fails_further with (path := path) (b := b). }
  rewrite H. unfold mk_match, mark_close, mark_open. cbn [option_map fst snd
    opened closed no_marks rev app map].
  f_equal. f_equal; [lia|].
  f_equal; [|f_equal].
  - change (u "![" ++ alt ++ u "](" ++ path ++ u ")")
      with (u "![" ++ alt ++ (u "](" ++ path ++ u ")")).
    apply (slice_middle (u "![") alt).
  - replace (u "![" ++ alt ++ u "](" ++ path ++ u ")")
      with ((u "![" ++ alt ++ u "](") ++ path ++ u ")")
      by (now rewrite <- !app_assoc).
    replace (2 + length alt + 2) with (length (u "![" ++ alt ++ u "]("))
      by (rewrite !length_app; simpl; lia).
    apply slice_middle.
Qed.

(** The texts of the two placeholders are accepted when the texts put
    into them are. *)
Lemma not_found_text_compatible (alt_text img_path : str) :
  xml_compatible (not_found_text alt_text img_path)
  = xml_compatible alt_text && xml_compatible img_path.
Proof.
  unfold not_found_text. rewrite !compatible_app.
  change (xml_compatible (u "[Image: ")) with true.
  change (xml_compatible (u " - File not found: ")) with true.
  change (xml_compatible (u "]")) with true.
  now rewrite andb_true_r.
Qed.

Lemma not_loaded_text_compatible (alt_text : str) (img_error : exn) :
  xml_compatible (not_loaded_text alt_text img_error)
  = xml_compatible alt_text && xml_compatible (exn_str img_error).
Proof.
  unfold not_loaded_text. rewrite !compatible_app.
  change (xml_compatible (u "[Image: ")) with true.
  change (xml_compatible (u " - Could not load: ")) with true.
  change (xml_compatible (u "]")) with true.
  now rewrite andb_true_r.
Qed.

(** C6, amended. Outside a code block, when the image pattern matches a
    line with the groups [alt] and [path] and nothing exists at the
    resolved path, the picture loader is not called (the only call is the
    look-up of the resolved path).  When python-docx accepts [alt] and the
    resolved path, the line adds one paragraph with the one run
    [[Image: alt - File not found: resolved]] and the loop goes on with the
    next lines from the same local state.  When it refuses one of them, the
    call that adds the placeholder raises and the loop ends there. *)
Theorem missing_image (st : pstate) (line : str) (m : rmatch) (w : world) :
  code_block st = false ->
  re_match image_re line = Some m ->
  path_exists env (resolve (group m 2)) = false ->
  let resolved := resolve (group m 2) in
  let text := u "[Image: " ++ group m 1 ++ u " - File not found: " ++ resolved
              ++ u "]" in
  (xml_compatible (group m 1) = true -> xml_compatible resolved = true ->
   let w' :=
     {| w_doc :=
          w_doc w ++
          [Para {| p_style := None; p_alignment := None;
                   p_runs := [text_run text] |}];
        w_log := w_log w ++ [EExists resolved] |} in
   step st line w = (Ok st, w')
   /\ forall rest, for_lines (line :: rest) st w = for_lines rest st w')
  /\ (forall piece, refused text = Some piece ->
      let w' :=
        {| w_doc := w_doc w ++ [Para (partial_paragraph text)];
           w_log := w_log w ++ [EExists resolved] |} in
      step st line w = (Raise (refusal env piece), w')
      /\ forall rest,
          for_lines (line :: rest) st w = (Raise (refusal env piece), w')).
Proof.
  intros Hcb Hm Hex resolved text.
  assert (Hstep : step st line w
                  = (add_paragraph env text None ;; ret st)
                      {| w_doc := w_doc w;
                         w_log := w_log w ++ [EExists resolved] |}).
  { rewrite (@image_line_reaches_branch line m Hm st Hcb).
    unfold Tool.do_image. rewrite Hm.
    unfold bind, log. cbn [w_doc w_log]. fold resolved.
    unfold resolved at 1. rewrite Hex. reflexivity. }
  split.
  - intros Halt Hres w'.
    assert (Hok : step st line w = (Ok st, w')).
    { rewrite Hstep, add_paragraph_ok; [reflexivity|].
      change text with (not_found_text (group m 1) resolved).
      now rewrite not_found_text_compatible, Halt, Hres. }
    split; [exact Hok|].
    intros rest. cbn [Tool.for_lines]. unfold bind. now rewrite Hok.
  - intros piece Hpiece w'.
    assert (Hno : step st line w = (Raise (refusal env piece), w')).
    { rewrite Hstep. unfold bind, add_paragraph. rewrite Hpiece.
      reflexivity. }
    split; [exact Hno|].
    intros rest. cbn [Tool.for_lines]. unfold bind. now rewrite Hno.
Qed.

End Image.

(** *** The chart path *)

Lemma replace_from_skip (old new : str) :
  forall (s : str) (k : nat),
    Str.replace_from old new s k = Str.replace_from old new (skipn k s) 0.
Proof.
  induction s as [|c s IH]; intros k.
  - destruct k; reflexivity.
  - destruct k as [|k]; [reflexivity|]. simpl. apply IH.
Qed.

Lemma replace_from_absent (old new : str) :
  forall s, Str.contains old s = false -> Str.replace_from old new s 0 = s.
Proof.
  induction s as [|c s IH]; intros H; [reflexivity|].
  cbn [Str.contains] in H. apply orb_false_iff in H as [Hhere Hrest].
  cbn [Str.replace_from]. rewrite Hhere. f_equal. now apply IH.
Qed.

(** A path that does not start with [../charts/] is looked up as it is,
    and one that holds [../charts/] at its start only has it replaced by
    [outputs/charts/]. *)
Lemma resolve_other (img_path : str) :
  startswith CHARTS_REL img_path = false -> resolve img_path = img_path.
Proof. intros H. unfold resolve. now rewrite H. Qed.

Lemma resolve_single (rest : str) :
  Str.contains CHARTS_REL rest = false ->
  resolve (CHARTS_REL ++ rest) = CHARTS_OUT ++ rest.
Proof.
  intros H. unfold resolve. rewrite startswith_app.
  change (Str.replace CHARTS_REL CHARTS_OUT (CHARTS_REL ++ rest))
    with (Str.replace_from CHARTS_REL CHARTS_OUT (CHARTS_REL ++ rest) 0).
  change (CHARTS_REL ++ rest)
    with (chr "." :: tl CHARTS_REL ++ rest) at 1.
  cbn [Str.replace_from].
  change (chr "." :: tl CHARTS_REL ++ rest) with (CHARTS_REL ++ rest).
  rewrite startswith_app. f_equal.
  rewrite replace_from_skip.
  change (skipn (length CHARTS_REL - 1) (tl CHARTS_REL ++ rest)) with rest.
  now apply replace_from_absent.
Qed.

(** C7 at the path [../charts/../charts/x.png]: the replacement is made
    at every occurrence of [../charts/], not at the start only, so the path
    that is looked up is [outputs/charts/outputs/charts/x.png] and not
    [outputs/charts/../charts/x.png]. *)
Theorem chart_rewrite_at_repeated_prefix :
  resolve (u "../charts/../charts/x.png")
  = u "outputs/charts/outputs/charts/x.png"
  /\ resolve (u "../charts/../charts/x.png")
     <> CHARTS_OUT ++ skipn (length CHARTS_REL) (u "../charts/../charts/x.png")
  /\ CHARTS_OUT ++ skipn (length CHARTS_REL) (u "../charts/../charts/x.png")
     = u "outputs/charts/../charts/x.png"
  /\ forall uni_decimal env,
      snd (step uni_decimal env initial (u "![c](../charts/../charts/x.png)")
                {| w_doc := []; w_log := [] |})
      = if path_exists env (u "outputs/charts/outputs/charts/x.png")
        then snd (do_image uni_decimal env
                           (u "![c](../charts/../charts/x.png)")
                           {| w_doc := []; w_log := [] |})
        else {| w_doc :=
                  [Para {| p_style := None; p_alignment := None;
                           p_runs :=
                             [text_run
                                (u "[Image: c - File not found: outputs/charts/outputs/charts/x.png]")]
                        |}];
                w_log := [EExists (u "outputs/charts/outputs/charts/x.png")] |}.
Proof.
  split; [reflexivity|]. split; [vm_compute; discriminate|].
  split; [reflexivity|].
  intros uni_decimal env.
  rewrite (@image_line_reaches_branch uni_decimal env
             (u "![c](../charts/../charts/x.png)")
             {| m_start := 0; m_end := 31;
                m_groups := [u "c"; u "../charts/../charts/x.png"] |}
             eq_refl initial eq_refl).
  unfold bind.
  destruct (path_exists env (u "outputs/charts/outputs/charts/x.png")) eqn:E.
  - destruct (do_image uni_decimal env _ _) as [[[]|e] w']; reflexivity.
  - unfold Tool.do_image.
    change (Re.re_match uni_decimal image_re
              (u "![c](../charts/../charts/x.png)"))
      with (Some {| m_start := 0; m_end := 31;
                    m_groups := [u "c"; u "../charts/../charts/x.png"] |}).
    cbv beta iota.
    change (resolve (group _ 2))
      with (u "outputs/charts/outputs/charts/x.png").
    unfold bind, log. cbn [w_doc w_log app].
    rewrite E. reflexivity.
Qed.

(** *** Texts that python-docx accepts *)

(** What the converter writes is made of pieces of the line: when the line
    holds only characters that python-docx accepts, so does every text that
    is written. *)

Lemma compatible_skipn (n : nat) (s : str) :
  xml_compatible s = true -> xml_compatible (skipn n s) = true.
Proof.
  revert s. induction n as [|n IH]; intros [|c s] H; try exact H.
  cbn [skipn]. apply IH. cbn [xml_compatible forallb] in H.
  now apply andb_true_iff in H.
Qed.

Lemma compatible_firstn (n : nat) (s : str) :
  xml_compatible s = true -> xml_compatible (firstn n s) = true.
Proof.
  revert s. induction n as [|n IH]; intros [|c s] H; try reflexivity.
  cbn [firstn xml_compatible forallb] in *.
  apply andb_true_iff in H as [Hc Hs]. rewrite Hc. now apply IH.
Qed.

Lemma compatible_slice (s : str) (i j : nat) :
  xml_compatible s = true -> xml_compatible (slice s i j) = true.
Proof.
  intros H. unfold slice. now apply compatible_firstn, compatible_skipn.
Qed.

Lemma compatible_groups (text : str) (pos : nat) (r : nat * marks) :
  xml_compatible text = true ->
  forallb xml_compatible (m_groups (mk_match text pos r)) = true.
Proof.
  intros H. cbn [mk_match m_groups]. apply forallb_forall.
  intros g Hg. apply in_map_iff in Hg as (sp & <- & _).
  now apply compatible_slice.
Qed.

Lemma compatible_group (m : rmatch) (i : nat) :
  forallb xml_compatible (m_groups m) = true ->
  xml_compatible (group m i) = true.
Proof.
  intros H. unfold group.
  destruct (nth_in_or_default (i - 1) (m_groups m) []) as [Hin| ->];
    [|reflexivity].
  rewrite forallb_forall in H. now apply H.
Qed.

Lemma compatible_sub_from (repl text : str) :
  xml_compatible repl = true -> xml_compatible text = true ->
  forall ms cur, xml_compatible (sub_from repl text cur ms) = true.
Proof.
  intros Hr Ht. induction ms as [|m ms IH]; intros cur; cbn [sub_from].
  - now apply compatible_skipn.
  - now rewrite !compatible_app, compatible_slice, Hr, IH.
Qed.

Lemma compatible_replace_from (old new : str) :
  xml_compatible new = true ->
  forall s skip,
    xml_compatible s = true ->
    xml_compatible (Str.replace_from old new s skip) = true.
Proof.
  intros Hn. induction s as [|c s IH]; intros skip Hs; [reflexivity|].
  pose proof Hs as Hcs.
  cbn [xml_compatible forallb] in Hs. apply andb_true_iff in Hs as [Hc Hs].
  cbn [Str.replace_from]. destruct skip as [|k]; [|now apply IH].
  destruct (startswith old (c :: s)).
  - now rewrite compatible_app, Hn, IH.
  - cbn [xml_compatible forallb]. rewrite Hc. now apply IH.
Qed.

Lemma compatible_resolve (img_path : str) :
  xml_compatible img_path = true -> xml_compatible (resolve img_path) = true.
Proof.
  intros H. unfold resolve.
  destruct (startswith CHARTS_REL img_path); [|exact H].
  now apply compatible_replace_from.
Qed.

Lemma compatible_join (sep : str) (parts : list str) :
  xml_compatible sep = true ->
  forallb xml_compatible parts = true ->
  xml_compatible (join sep parts) = true.
Proof.
  intros Hsep. induction parts as [|a parts IH]; intros H; [reflexivity|].
  cbn [forallb] in H. apply andb_true_iff in H as [Ha Hp].
  cbn [join]. destruct parts as [|b parts]; [exact Ha|].
  now rewrite !compatible_app, Ha, Hsep, IH.
Qed.


Lemma styled_run_text (f : fmt) (t : str) : r_text (styled_run f t) = t.
Proof. now destruct f. Qed.

Section Accepted.

Variable uni_decimal : N -> bool.

Lemma compatible_match (p : regex) (text : str) (m : rmatch) :
  xml_compatible text = true ->
  In m (Re.finditer uni_decimal p text) ->
  forallb xml_compatible (m_groups m) = true.
Proof.
  intros Ht Hin. apply scan_in in Hin as (s' & r & _ & ->).
  now apply compatible_groups.
Qed.

Lemma compatible_all_matches (text : str) (f : fmt) (m : rmatch) :
  xml_compatible text = true ->
  In (f, m) (all_matches uni_decimal text) ->
  forallb xml_compatible (m_groups m) = true.
Proof.
  intros Ht Hin. unfold all_matches in Hin.
  apply -> sort_by_start_in in Hin.
  apply in_app_or in Hin as [Hin|Hin].
  - apply kept_from in Hin as [Hin|[_ Hin]].
    + apply in_map_iff in Hin as (m0 & Hm0 & Hin). inversion Hm0; subst.
      now apply compatible_match with (p := bold_pattern) (text := text).
    + now apply compatible_match with (p := italic_pattern) (text := text).
  - apply in_map_iff in Hin as (m0 & Hm0 & Hin). inversion Hm0; subst.
    now apply compatible_match with (p := code_inline_pattern) (text := text).
Qed.

Lemma compatible_emit_runs (text : str) :
  xml_compatible text = true ->
  forall ms current_pos,
    (forall f m, In (f, m) ms ->
                 forallb xml_compatible (m_groups m) = true) ->
    forallb (fun r => xml_compatible (r_text r))
            (emit_runs text ms current_pos) = true.
Proof.
  intros Ht. induction ms as [|[f m] ms IH]; intros pos Hms;
    cbn [emit_runs].
  - destruct (pos <? length text); [|reflexivity].
    cbn [forallb text_run r_text]. now rewrite compatible_skipn.
  - rewrite forallb_app. cbn [forallb]. rewrite styled_run_text.
    rewrite compatible_group by (apply (Hms f m); now left).
    rewrite IH by (intros f0 m0 H0; apply (Hms f0 m0); now right).
    destruct (pos <? m_start m); [|reflexivity].
    cbn [forallb text_run r_text]. now rewrite compatible_slice.
Qed.

Lemma compatible_paragraph_runs (text : str) :
  xml_compatible text = true ->
  forallb (fun r => xml_compatible (r_text r))
          (paragraph_runs uni_decimal text) = true.
Proof.
  intros Ht. unfold paragraph_runs.
  destruct (all_matches uni_decimal text) as [|x ms] eqn:E.
  - cbn [forallb text_run r_text]. now rewrite Ht.
  - apply compatible_emit_runs; [exact Ht|].
    intros f m Hin. apply (@compatible_all_matches text f m Ht).
    now rewrite E.
Qed.

Lemma compatible_numbered (line : str) :
  xml_compatible line = true ->
  xml_compatible (Re.re_sub uni_decimal numbered_re [] line) = true.
Proof.
  intros H. unfold Re.re_sub. now apply compatible_sub_from.
Qed.

End Accepted.

Lemma compatible_repeat (c : N) (n : nat) :
  xml_char c = true -> xml_compatible (repeat c n) = true.
Proof.
  intros H. induction n as [|n IH]; [reflexivity|].
  cbn [repeat xml_compatible forallb]. now rewrite H.
Qed.

(** A paragraph line that python-docx accepts gets its paragraph with all
    its runs. *)
Lemma do_paragraph_ok (uni_decimal : N -> bool) (env : Env) (line : str)
      (w : world) :
  xml_compatible line = true ->
  do_paragraph uni_decimal env line w
  = (Ok tt,
     {| w_doc := w_doc w ++
                 [Para {| p_style := None; p_alignment := None;
                          p_runs := paragraph_runs uni_decimal line |}];
        w_log := w_log w |}).
Proof.
  intros H. unfold do_paragraph, bind.
  change (add_paragraph env [] None w)
    with (Ok tt, {| w_doc := w_doc w ++ [Para (new_paragraph [] None)];
                    w_log := w_log w |}).
  cbv beta iota.
  rewrite add_runs_ok by now apply compatible_paragraph_runs.
  reflexivity.
Qed.

(** *** The loop over the lines *)

Ltac run_m :=
  simpl;
  unfold bind, ret, add, log, when, check, raise, try_except, update_last,
         get_doc, set_doc; simpl.

Lemma guarded_reads_app (found : str -> bool) (a b : list event) :
  guarded_reads found a -> guarded_reads found b ->
  guarded_reads found (a ++ b).
Proof.
  intros Ha Hb. induction Ha; simpl; [exact Hb | |].
  - now apply reads_miss.
  - now apply reads_hit.
Qed.

Lemma guarded_reads_pictures (found : str -> bool) (evs : list event) :
  guarded_reads found evs ->
  forall p, In (EAddPicture p) evs -> found p = true.
Proof.
  intros H. induction H; intros q Hq; simpl in Hq.
  - contradiction.
  - destruct Hq as [Hq|Hq]; [discriminate | now apply IHguarded_reads].
  - destruct Hq as [Hq|[Hq|Hq]]; [discriminate | | now apply IHguarded_reads].
    now inversion Hq; subst.
Qed.



Section Loop.

Variable uni_decimal : N -> bool.
Variable env : Env.

Local Abbreviation step := (Tool.step uni_decimal env).
Local Abbreviation for_lines := (Tool.for_lines uni_decimal env).
Local Abbreviation do_image := (Tool.do_image uni_decimal env).

Lemma reads_only_same (w w' : world) :
  w_log w' = w_log w -> reads_only w w'.
Proof. intros H. exists []. now rewrite app_nil_r. Qed.

Lemma reads_only_trans (w1 w2 w3 : world) :
  reads_only w1 w2 -> reads_only w2 w3 -> reads_only w1 w3.
Proof.
  intros (e1 & H1 & F1) (e2 & H2 & F2). exists (e1 ++ e2). split.
  - now rewrite H2, H1, app_assoc.
  - now rewrite forallb_app, F1, F2.
Qed.

Lemma reads_only_more (w w' : world) (evs : list event) :
  w_log w' = w_log w ++ evs -> forallb is_read evs = true ->
  reads_only w w'.
Proof. intros H F. now exists evs. Qed.

Lemma as_caption_new (alt_text : str) :
  nonempty alt_text = true ->
  as_caption (new_paragraph alt_text None) = caption_paragraph alt_text.
Proof. destruct alt_text; [discriminate | reflexivity]. Qed.

(** What a picture line does once its path exists.  The branch catches
    the error of the loader; it raises only when python-docx refuses the
    text of the caption or of the placeholder. *)
Lemma picture_branch (alt_text img_path : str) (d : document)
      (l : list event) :
  exists o added,
    try_except
      (add (Para picture_paragraph) ;;
       log (EAddPicture img_path) ;;
       check (picture_fault env img_path) ;;
       update_last (with_picture img_path) ;;
       when (nonempty alt_text)
            (add_paragraph env alt_text None ;; update_last as_caption))
      (fun img_error =>
         add_paragraph env (not_loaded_text alt_text img_error) None)
      {| w_doc := d; w_log := l |}
    = (o, {| w_doc := d ++ added; w_log := l ++ [EAddPicture img_path] |})
    /\ match o with
       | Ok _ => length added <= 2
       | Raise _ => length added <= 3
       end
    /\ (xml_compatible alt_text = true ->
        (forall e, picture_fault env img_path = Some e ->
                   xml_compatible (exn_str e) = true) ->
        o = Ok tt
        /\ added
           = match picture_fault env img_path with
             | Some img_error =>
                 [Para picture_paragraph;
                  Para (new_paragraph (not_loaded_text alt_text img_error)
                                      None)]
             | None =>
                 Para (with_picture img_path picture_paragraph)
                 :: (if nonempty alt_text
                     then [Para (caption_paragraph alt_text)] else [])
             end).
Proof.
  unfold try_except, bind at 1 2 3, add at 1, log, check. cbn [w_doc w_log].
  destruct (picture_fault env img_path) as [e|].
  - unfold raise. cbn [w_doc w_log]. unfold add_paragraph.
    destruct (refused (not_loaded_text alt_text e)) as [piece|] eqn:E.
    + exists (Raise (refusal env piece)),
             [Para picture_paragraph;
              Para (partial_paragraph (not_loaded_text alt_text e))].
      unfold bind, add, raise. cbn [w_doc w_log]. rewrite <- app_assoc.
      split; [reflexivity|]. split; [simpl; lia|].
      intros Halt He. exfalso.
      assert (Hc : xml_compatible (not_loaded_text alt_text e) = true)
        by (rewrite not_loaded_text_compatible, Halt; now apply He).
      apply refused_compatible in Hc. congruence.
    + exists (Ok tt),
             [Para picture_paragraph;
              Para (new_paragraph (not_loaded_text alt_text e) None)].
      unfold add. cbn [w_doc w_log]. rewrite <- app_assoc.
      split; [reflexivity|]. split; [simpl; lia|]. now split.
  - unfold ret at 1. unfold bind at 1. rewrite update_last_app.
    destruct (nonempty alt_text) eqn:Hne; unfold when.
    2:{ exists (Ok tt), [Para (with_picture img_path picture_paragraph)].
        unfold ret. split; [reflexivity|]. split; [simpl; lia|]. now split. }
    unfold bind, add_paragraph.
    destruct (refused alt_text) as [piece|] eqn:E.
    + unfold bind, add, raise. cbn [w_doc w_log].
      assert (Hbad : xml_compatible alt_text = false).
      { destruct (xml_compatible alt_text) eqn:Hc; [|reflexivity].
        apply refused_compatible in Hc. congruence. }
      destruct (refused (not_loaded_text alt_text (refusal env piece)))
        as [piece'|] eqn:E'.
      * exists (Raise (refusal env piece')),
               [Para (with_picture img_path picture_paragraph);
                Para (partial_paragraph alt_text);
                Para (partial_paragraph
                        (not_loaded_text alt_text (refusal env piece)))].
        cbn [w_doc w_log]. rewrite <- !app_assoc.
        split; [reflexivity|]. split; [simpl; lia|].
        intros Halt. congruence.
      * exfalso. apply refused_compatible in E'.
        rewrite not_loaded_text_compatible, Hbad in E'. discriminate.
    + unfold add. cbn [w_doc w_log]. rewrite update_last_app.
      rewrite (as_caption_new _ Hne).
      exists (Ok tt),
             [Para (with_picture img_path picture_paragraph);
              Para (caption_paragraph alt_text)].
      rewrite <- app_assoc.
      split; [reflexivity|]. split; [simpl; lia|]. now split.
Qed.

(** The whole effect of an image line. *)
Lemma do_image_effect (line : str) (w : world) :
  exists o added evs w',
    do_image line w = (o, w')
    /\ w_doc w' = w_doc w ++ added
    /\ w_log w' = w_log w ++ evs
    /\ guarded_reads (path_exists env) evs
    /\ match o with
       | Ok _ => length added <= 2
       | Raise _ => length added <= 3
       end
    /\ (xml_compatible line = true -> loader_errors_accepted env ->
        o = Ok tt).
Proof.
  unfold Tool.do_image.
  destruct (Re.re_match uni_decimal image_re line) as [m|] eqn:Hm.
  2:{ exists (Ok tt), [], [], w. rewrite !app_nil_r.
      repeat split; [constructor | simpl; lia]. }
  assert (Hgroups : xml_compatible line = true ->
                    forallb xml_compatible (m_groups m) = true).
  { intros Hline. unfold Re.re_match in Hm.
    destruct (Re.attempt uni_decimal image_re 0 line no_marks) as [r|];
      [|discriminate].
    injection Hm as <-. now apply compatible_groups. }
  set (p := resolve (group m 2)) in *. set (alt := group m 1) in *.
  unfold bind at 1, log at 1.
  destruct (path_exists env p) eqn:Hp.
  - destruct (picture_branch alt p (w_doc w) (w_log w ++ [EExists p]))
      as (o & added & H & Hlen & Hok).
    rewrite H. exists o, added, [EExists p; EAddPicture p]. eexists.
    split; [reflexivity|]. cbn [w_doc w_log].
    split; [reflexivity|]. split; [now rewrite <- app_assoc|].
    split; [apply reads_hit; [exact Hp | constructor]|].
    split; [exact Hlen|].
    intros Hline Herr. apply Hok.
    + now apply compatible_group, Hgroups.
    + intros e. apply Herr.
  - destruct (add_paragraph_effect env (not_found_text alt p) None
                {| w_doc := w_doc w; w_log := w_log w ++ [EExists p] |})
      as (o & e & H & Hok).
    rewrite H. exists o, [e], [EExists p]. eexists.
    split; [reflexivity|]. cbn [w_doc w_log].
    split; [reflexivity|]. split; [reflexivity|].
    split; [apply reads_miss; [exact Hp | constructor]|].
    split; [destruct o; simpl; lia|].
    intros Hline _. apply Hok.
    rewrite not_found_text_compatible. apply andb_true_iff. split.
    + now apply compatible_group, Hgroups.
    + now apply compatible_resolve, compatible_group, Hgroups.
Qed.

(** The lines in the buffer stay accepted. *)
Lemma next_state_compatible (st : pstate) (line : str) :
  xml_compatible line = true ->
  forallb xml_compatible (code_content st) = true ->
  forallb xml_compatible (code_content (Spec.next_state st line)) = true.
Proof.
  intros Hl Hc. unfold Spec.next_state.
  destruct (Spec.is_fence line), (code_block st); cbn [code_content];
    try exact Hc; try reflexivity.
  rewrite forallb_app, Hc. cbn [forallb]. now rewrite Hl.
Qed.

(** The whole effect of a line: it appends to the document and to the
    log, whether it returns or raises; and it returns when python-docx
    accepts the line, the lines of the buffer and the errors of the
    loader. *)
Lemma step_effect (st : pstate) (line : str) (w : world) :
  exists o added evs w',
    step st line w = (o, w')
    /\ w_doc w' = w_doc w ++ added
    /\ w_log w' = w_log w ++ evs
    /\ guarded_reads (path_exists env) evs
    /\ match o with
       | Ok st' => st' = Spec.next_state st line /\ length added <= 2
       | Raise _ => length added <= 3
       end
    /\ (xml_compatible line = true ->
        forallb xml_compatible (code_content st) = true ->
        loader_errors_accepted env ->
        o = Ok (Spec.next_state st line)).
Proof.
  assert (Hsame : forall st' : pstate,
             st' = Spec.next_state st line ->
             exists o added evs w',
               (Ok st', w) = (o, w')
               /\ w_doc w' = w_doc w ++ added
               /\ w_log w' = w_log w ++ evs
               /\ guarded_reads (path_exists env) evs
               /\ match o with
                  | Ok st'' =>
                      st'' = Spec.next_state st line /\ length added <= 2
                  | Raise _ => length added <= 3
                  end
               /\ (xml_compatible line = true ->
                   forallb xml_compatible (code_content st) = true ->
                   loader_errors_accepted env ->
                   o = Ok (Spec.next_state st line))).
  { intros st' ->. exists (Ok (Spec.next_state st line)), [], [], w.
    rewrite !app_nil_r.
    repeat split; [constructor | simpl; lia]. }
  assert (Hone : forall (c : M unit) (P : Prop) (st' : pstate),
             st' = Spec.next_state st line ->
             (xml_compatible line = true ->
              forallb xml_compatible (code_content st) = true ->
              loader_errors_accepted env -> P) ->
             (exists o e,
                 c w = (o, {| w_doc := w_doc w ++ [e]; w_log := w_log w |})
                 /\ (P -> o = Ok tt)) ->
             exists o added evs w',
               (c ;; ret st') w = (o, w')
               /\ w_doc w' = w_doc w ++ added
               /\ w_log w' = w_log w ++ evs
               /\ guarded_reads (path_exists env) evs
               /\ match o with
                  | Ok st'' =>
                      st'' = Spec.next_state st line /\ length added <= 2
                  | Raise _ => length added <= 3
                  end
               /\ (xml_compatible line = true ->
                   forallb xml_compatible (code_content st) = true ->
                   loader_errors_accepted env ->
                   o = Ok (Spec.next_state st line))).
  { intros c P st' -> HP (o & e & H & Hok). unfold bind. rewrite H.
    destruct o as [[]|ex].
    - exists (Ok (Spec.next_state st line)), [e], []. eexists.
      split; [reflexivity|]. cbn [w_doc w_log]. rewrite app_nil_r.
      repeat split; [constructor | simpl; lia].
    - exists (Raise ex), [e], []. eexists.
      split; [reflexivity|]. cbn [w_doc w_log]. rewrite app_nil_r.
      repeat split; [constructor | simpl; lia|].
      intros H1 H2 H3. specialize (Hok (HP H1 H2 H3)). discriminate. }
  rewrite step_performs.
  unfold Spec.classify.
  destruct (startswith FENCE line) eqn:Hf.
  { cbn [Spec.perform]. unfold do_fence.
    destruct (code_block st) eqn:Hcb; cbn [negb].
    2:{ apply Hsame. unfold Spec.next_state, Spec.is_fence.
        now rewrite Hf, Hcb. }
    destruct (nonempty (code_content st)) eqn:Hne.
    2:{ unfold when, bind, ret. apply Hsame.
        unfold Spec.next_state, Spec.is_fence. now rewrite Hf, Hcb. }
    unfold when.
    apply Hone with (P := xml_compatible (join [NL] (code_content st)) = true).
    - unfold Spec.next_state, Spec.is_fence. now rewrite Hf, Hcb.
    - intros _ Hc _. now apply compatible_join.
    - unfold bind at 1, add at 1, add_run.
      set (p0 := {| p_style := Some (u "No Spacing"); p_alignment := None;
                    p_runs := [] |}).
      destruct (refused (r_text (code_run (code_content st))))
        as [piece|] eqn:E.
      + unfold bind. rewrite update_last_app. unfold raise.
        do 2 eexists. split; [reflexivity|].
        intros Hc. apply refused_compatible in Hc.
        cbn [code_run r_text] in E. congruence.
      + rewrite update_last_app. do 2 eexists. split; reflexivity. }
  destruct (code_block st) eqn:Hcb.
  { cbn [Spec.perform]. apply Hsame.
    unfold Spec.next_state, Spec.is_fence. now rewrite Hf, Hcb. }
  assert (Hst : st = Spec.next_state st line).
  { unfold Spec.next_state, Spec.is_fence. now rewrite Hf, Hcb. }
  destruct (startswith (u "#### ") line);
    [cbn [Spec.perform];
     apply Hone with (P := xml_compatible (skipn 5 line) = true);
     [exact Hst | intros H _ _; now apply compatible_skipn
      | apply add_heading_effect]|].
  destruct (startswith (u "### ") line);
    [cbn [Spec.perform];
     apply Hone with (P := xml_compatible (skipn 4 line) = true);
     [exact Hst | intros H _ _; now apply compatible_skipn
      | apply add_heading_effect]|].
  destruct (startswith (u "## ") line);
    [cbn [Spec.perform];
     apply Hone with (P := xml_compatible (skipn 3 line) = true);
     [exact Hst | intros H _ _; now apply compatible_skipn
      | apply add_heading_effect]|].
  destruct (startswith (u "# ") line);
    [cbn [Spec.perform];
     apply Hone with (P := xml_compatible (skipn 2 line) = true);
     [exact Hst | intros H _ _; now apply compatible_skipn
      | apply add_heading_effect]|].
  destruct (startswith (u "- ") line || startswith (u "* ") line);
    [cbn [Spec.perform];
     apply Hone with (P := xml_compatible (skipn 2 line) = true);
     [exact Hst | intros H _ _; now apply compatible_skipn
      | apply add_paragraph_effect]|].
  destruct (is_some (Re.re_match uni_decimal numbered_re line));
    [cbn [Spec.perform];
     apply Hone
       with (P := xml_compatible (Re.re_sub uni_decimal numbered_re [] line)
                  = true);
     [exact Hst | intros H _ _; now apply compatible_numbered
      | apply add_paragraph_effect]|].
  destruct (is_some (Re.re_match uni_decimal image_test_re line)).
  { cbn [Spec.perform].
    destruct (do_image_effect line w)
      as (o & added & evs & w' & H & D & L & G & Hlen & Hok).
    unfold bind. rewrite H. destruct o as [[]|ex].
    - exists (Ok st), added, evs, w'. unfold ret.
      split; [reflexivity|]. split; [exact D|]. split; [exact L|].
      split; [exact G|]. split; [now split|].
      intros _ _ _. now rewrite <- Hst.
    - exists (Raise ex), added, evs, w'.
      split; [reflexivity|]. split; [exact D|]. split; [exact L|].
      split; [exact G|]. split; [exact Hlen|].
      intros H1 _ H3. specialize (Hok H1 H3). discriminate. }
  destruct (Str.contains [BAR] line && startswith [BAR] (strip line)).
  { cbn [Spec.perform]. unfold do_table.
    destruct (is_separator line).
    - unfold bind, ret. apply Hsame. exact Hst.
    - apply Hone with (P := xml_compatible line = true);
        [exact Hst | now intros H _ _ | apply add_paragraph_effect]. }
  destruct (Str.eqb (strip line) []).
  { cbn [Spec.perform].
    apply Hone with (P := xml_compatible [] = true);
      [exact Hst | now intros _ _ _ | apply add_paragraph_effect]. }
  cbn [Spec.perform].
  apply Hone with (P := xml_compatible line = true);
    [exact Hst | now intros H _ _ |].
  unfold do_paragraph, bind at 1.
  change (add_paragraph env [] None w)
    with (Ok tt, {| w_doc := w_doc w ++ [Para (new_paragraph [] None)];
                    w_log := w_log w |}).
  destruct (add_runs_effect env (paragraph_runs uni_decimal line) (w_doc w)
              (new_paragraph [] None) (w_log w)) as (o & p' & H).
  exists o, (Para p'). split; [exact H|].
  intros Hline. rewrite add_runs_ok in H
    by now apply compatible_paragraph_runs.
  now inversion H.
Qed.

Lemma for_lines_app (l1 l2 : list str) :
  forall st w,
    for_lines (l1 ++ l2) st w
    = match for_lines l1 st w with
      | (Ok st', w') => for_lines l2 st' w'
      | (Raise e, w') => (Raise e, w')
      end.
Proof.
  induction l1 as [|line l1 IH]; intros st w; simpl; [reflexivity|].
  unfold bind.
  destruct (step st line w) as [[st'|e] w']; [apply IH | reflexivity].
Qed.

(** The whole effect of the loop.  When it returns, the flag has changed
    once for every fence. *)
Lemma for_lines_effect (lines : list str) :
  forall st w,
    exists o added evs w',
      for_lines lines st w = (o, w')
      /\ w_doc w' = w_doc w ++ added
      /\ w_log w' = w_log w ++ evs
      /\ guarded_reads (path_exists env) evs
      /\ match o with
         | Ok st' =>
             code_block st'
             = xorb (code_block st) (Nat.odd (Spec.fences lines))
             /\ length added <= 2 * length lines
         | Raise _ => length added <= 2 * length lines + 1
         end
      /\ (forallb xml_compatible lines = true ->
          forallb xml_compatible (code_content st) = true ->
          loader_errors_accepted env ->
          exists st', o = Ok st').
Proof.
  induction lines as [|line lines IH]; intros st w.
  - exists (Ok st), [], [], w. rewrite !app_nil_r.
    split; [reflexivity|]. split; [reflexivity|]. split; [reflexivity|].
    split; [constructor|]. split.
    + split; [now rewrite xorb_false_r | simpl; lia].
    + intros _ _ _. now exists st.
  - destruct (step_effect st line w)
      as (o1 & a1 & e1 & w1 & H1 & D1 & L1 & G1 & N1 & K1).
    cbn [Tool.for_lines]. unfold bind. rewrite H1.
    destruct o1 as [st1|ex].
    2:{ exists (Raise ex), a1, e1, w1.
        split; [reflexivity|]. split; [exact D1|]. split; [exact L1|].
        split; [exact G1|]. split; [simpl length; lia|].
        intros Hl Hc He. cbn [forallb] in Hl.
        apply andb_true_iff in Hl as [Hl _].
        specialize (K1 Hl Hc He). discriminate. }
    destruct N1 as [-> N1].
    destruct (IH (Spec.next_state st line) w1)
      as (o & a2 & e2 & w2 & H2 & D2 & L2 & G2 & N2 & K2).
    exists o, (a1 ++ a2), (e1 ++ e2), w2.
    split; [exact H2|].
    split; [now rewrite D2, D1, app_assoc|].
    split; [now rewrite L2, L1, app_assoc|].
    split; [now apply guarded_reads_app|].
    split.
    + destruct o as [st'|ex].
      * destruct N2 as [N2 N3]. split; [|rewrite length_app; simpl length; lia].
        rewrite N2. unfold Spec.next_state, Spec.fences. simpl.
        destruct st as [cb content]; simpl.
        destruct (Spec.is_fence line); simpl.
        -- rewrite Nat.odd_succ, <- Nat.negb_odd.
           destruct cb; simpl;
             destruct (Nat.odd (length (filter Spec.is_fence lines)));
             reflexivity.
        -- destruct cb; reflexivity.
      * rewrite length_app. simpl length. lia.
    + intros Hl Hc He. cbn [forallb] in Hl.
      apply andb_true_iff in Hl as [Hl Hls].
      apply K2; [exact Hls | now apply next_state_compatible | exact He].
Qed.


(** Inside a code block, lines that are not fences go to the buffer and
    nowhere else. *)
Lemma for_lines_buffer (body : list str) :
  forall content w,
    (forall l, In l body -> Spec.is_fence l = false) ->
    for_lines body {| code_block := true; code_content := content |} w
    = (Ok {| code_block := true; code_content := content ++ body |}, w).
Proof.
  induction body as [|l body IH]; intros content w Hb; simpl.
  - now rewrite app_nil_r.
  - unfold bind, Tool.step. fold (Spec.is_fence l).
    rewrite (Hb l (or_introl eq_refl)). simpl.
    rewrite IH by (intros; apply Hb; now right).
    now rewrite <- app_assoc.
Qed.



End Loop.




(** *** The whole call *)

Section Call.

Variable uni_decimal : N -> bool.
Variable env : Env.

Local Abbreviation for_lines := (Tool.for_lines uni_decimal env).
Local Abbreviation convert := (Tool.convert uni_decimal env).
Local Abbreviation _run := (Tool._run uni_decimal env).
Local Abbreviation target := (Spec.target env).
Local Abbreviation titled := Spec.titled.
Local Abbreviation logged := Spec.logged.

Lemma convert_unfold (md : str) (out : option str) (w : world) :
  convert md out w
  = match markdown2_fault env md with
    | Some e => (Raise e, titled w)
    | None =>
        match for_lines (split NL md) initial (titled w) with
        | (Ok _, w2) =>
            let dir := Path.dirname (target out) in
            match makedirs_fault env dir with
            | Some e => (Raise e, logged w2 [EMakedirs dir])
            | None =>
                let w4 := logged (logged w2 [EMakedirs dir])
                                 [ESave (target out) (w_doc w2)] in
                match save_fault env (w_doc w2) (target out) with
                | Some e => (Raise e, w4)
                | None => (Ok (success_text (target out)), w4)
                end
            end
        | (Raise e, w2) => (Raise e, w2)
        end
    end.
Proof.
  unfold Tool.convert. fold (target out).
  change (add_heading env (u "Data Analysis Report") 0)
    with (add (Heading (u "Data Analysis Report") 0)).
  cbv [bind set_doc add check os_makedirs save log get_doc ret raise
       logged titled w_doc w_log].
  destruct (markdown2_fault env md) as [e|]; [reflexivity|].
  destruct (for_lines (split NL md) initial _) as [[st|e] [d2 l2]];
    [|reflexivity].
  destruct (makedirs_fault env (Path.dirname (target out)));
    [reflexivity|].
  destruct (save_fault env d2 (target out)); reflexivity.
Qed.






(** A path without a slash has no directory part. *)
Lemma after_last_absent (sep : N) (p : str) :
  ~ In sep p -> Path.after_last sep p = 0.
Proof.
  induction p as [|c p IH]; simpl; [reflexivity|].
  intros H. rewrite IH by tauto.
  destruct (N.eqb_spec c sep); [|reflexivity].
  exfalso. apply H. now left.
Qed.



End Call.

(* ================================================================== *)
(** ** Further properties of the pass *)

Section Effects.

Variable uni_decimal : N -> bool.
Variable env : Env.

Local Abbreviation step := (Tool.step uni_decimal env).
Local Abbreviation for_lines := (Tool.for_lines uni_decimal env).
Local Abbreviation do_image := (Tool.do_image uni_decimal env).
Local Abbreviation convert := (Tool.convert uni_decimal env).
Local Abbreviation _run := (Tool._run uni_decimal env).
Local Abbreviation re_match := (Re.re_match uni_decimal).

(** X1. Whatever the markdown, a document that is saved starts with the
    report title, holds at most two elements for each line after it, and is
    saved at the resolved path; nothing else is saved by the call. *)
Theorem saved_document_starts_with_title
        (md : str) (out : option str) (w : world) :
  exists s w' new,
    _run md out w = (Ok s, w')
    /\ w_log w' = w_log w ++ new
    /\ forall path doc,
        In (ESave path doc) new ->
        path = Spec.target env out
        /\ exists body,
            doc = TITLE :: body
            /\ length body <= 2 * length (split NL md).
Proof.
  unfold Tool._run, try_except.
  rewrite convert_unfold.
  destruct (markdown2_fault env md) as [e|].
  { exists (error_text e), (Spec.titled w), []. cbn [Spec.titled w_log].
    rewrite app_nil_r. repeat split; contradiction. }
  destruct (for_lines_effect uni_decimal env (split NL md) initial
              (Spec.titled w))
    as (o & body & evs & w2 & Hfor & Hdoc & Hlog & Hreads & Hlen & _).
  rewrite Hfor. cbn [Spec.titled w_doc w_log] in Hdoc, Hlog.
  assert (Hno : forall path doc, ~ In (ESave path doc) evs).
  { clear -Hreads. induction Hreads; intros path doc Hin; simpl in Hin.
    - exact Hin.
    - destruct Hin as [Hin|Hin]; [discriminate | now apply IHHreads in Hin].
    - destruct Hin as [Hin|[Hin|Hin]]; try discriminate.
      now apply IHHreads in Hin. }
  destruct o as [st|e].
  2:{ exists (error_text e), w2, evs. unfold ret.
      split; [reflexivity|]. split; [exact Hlog|].
      intros path doc Hin. now apply Hno in Hin. }
  destruct Hlen as [_ Hlen].
  set (dir := Path.dirname (Spec.target env out)).
  cbv zeta.
  destruct (makedirs_fault env dir) as [e|].
  { exists (error_text e), (Spec.logged w2 [EMakedirs dir]),
           (evs ++ [EMakedirs dir]).
    unfold ret. split; [reflexivity|].
    split; [cbn [Spec.logged w_log]; now rewrite Hlog, app_assoc|].
    intros path doc Hin. apply in_app_or in Hin as [Hin|[Hin|[]]].
    - now apply Hno in Hin.
    - discriminate Hin. }
  assert (Hsaved : forall path doc,
             In (ESave path doc)
                (evs ++ [EMakedirs dir;
                         ESave (Spec.target env out) (w_doc w2)]) ->
             path = Spec.target env out
             /\ exists body0,
                 doc = TITLE :: body0
                 /\ length body0 <= 2 * length (split NL md)).
  { intros path doc Hin. apply in_app_or in Hin as [Hin|[Hin|[Hin|[]]]].
    - now apply Hno in Hin.
    - discriminate Hin.
    - inversion Hin; subst. split; [reflexivity|].
      exists body. split; [exact Hdoc | exact Hlen]. }
  destruct (save_fault env (w_doc w2) (Spec.target env out)) as [e|];
    unfold ret; do 3 eexists;
    (split; [reflexivity|]);
    (split; [cbn [Spec.logged w_log]; rewrite Hlog, <- !app_assoc;
             reflexivity | exact Hsaved]).
Qed.

(** X2. During the pass over the lines, whether it returns or raises, the
    log grows only by look-ups of picture paths, and a picture is loaded
    only right after the look-up that has found it: the loader is never
    called on a path that does not exist. *)
Theorem pictures_loaded_only_when_found
        (lines : list str) (st : pstate) (w : world) :
  exists o evs w',
    for_lines lines st w = (o, w')
    /\ w_log w' = w_log w ++ evs
    /\ guarded_reads (path_exists env) evs
    /\ forall p, In (EAddPicture p) evs -> path_exists env p = true.
Proof.
  destruct (for_lines_effect uni_decimal env lines st w)
    as (o & added & evs & w' & H & _ & L & G & _).
  exists o, evs, w'. split; [exact H|]. split; [exact L|].
  split; [exact G|]. now apply guarded_reads_pictures.
Qed.

(** X3. Elements are only appended.  The program changes a paragraph
    through the reference it holds on it (to put the picture, the caption
    style, the runs), and only the paragraph it has just added: what the
    lines so far have put into the document is still there, unchanged and
    in front, after any further lines, whether they return or raise.
    Lines that return add at most two elements each; a line that raises
    leaves at most three, and ends the pass. *)
Theorem document_only_grows
        (lines more : list str) (st : pstate) (w : world) :
  exists o1 w1 o2 w2 added,
    for_lines lines st w = (o1, w1)
    /\ for_lines (lines ++ more) st w = (o2, w2)
    /\ w_doc w2 = w_doc w1 ++ added
    /\ length added <= 2 * length more + 1
    /\ (forall st2, o2 = Ok st2 -> length added <= 2 * length more)
    /\ (forall e, o1 = Raise e -> o2 = Raise e /\ w2 = w1).
Proof.
  destruct (for_lines_effect uni_decimal env lines st w)
    as (o1 & a1 & e1 & w1 & H1 & _).
  rewrite for_lines_app, H1.
  destruct o1 as [st1|e].
  - destruct (for_lines_effect uni_decimal env more st1 w1)
      as (o2 & a2 & e2 & w2 & H2 & D2 & _ & _ & N2 & _).
    exists (Ok st1), w1, o2, w2, a2.
    split; [reflexivity|]. split; [exact H2|]. split; [exact D2|].
    split; [destruct o2; [destruct N2|]; lia|].
    split; [intros st2 ->; now destruct N2 | intros; discriminate].
  - exists (Raise e), w1, (Raise e), w1, [].
    split; [reflexivity|]. split; [reflexivity|].
    split; [now rewrite app_nil_r|]. split; [simpl; lia|].
    split; [intros; discriminate|].
    intros e' He'. inversion He'; subst. now split.
Qed.

(** X4. A fence that is never closed swallows the rest: after an even
    number of fence markers, an opening marker followed by lines without
    a marker leaves the document and the log as they were before the
    opening marker, and the lines stay in the buffer, whatever they hold;
    if the lines before the opening marker have raised, the pass has ended
    there. *)
Theorem unclosed_fence_drops_the_rest
        (pre : list str) (opening : str) (body : list str) (w : world) :
  Nat.even (Spec.fences pre) = true ->
  Spec.is_fence opening = true ->
  (forall l, In l body -> Spec.is_fence l = false) ->
  for_lines (pre ++ opening :: body) initial w
  = match for_lines pre initial w with
    | (Ok _, w1) => (Ok {| code_block := true; code_content := body |}, w1)
    | (Raise e, w1) => (Raise e, w1)
    end.
Proof.
  intros Heven Hopen Hbody.
  destruct (for_lines_effect uni_decimal env pre initial w)
    as (o & added & evs & w1 & H1 & _ & _ & _ & N & _).
  rewrite for_lines_app, H1.
  destruct o as [st1|e]; [|reflexivity].
  destruct N as [Hcb _].
  simpl in Hcb. rewrite <- Nat.negb_even, Heven in Hcb. simpl in Hcb.
  change (opening :: body) with ([opening] ++ body).
  rewrite for_lines_app.
  assert (Ho : for_lines [opening] st1 w1
               = (Ok {| code_block := true; code_content := [] |}, w1)).
  { simpl. unfold bind, Tool.step. fold (Spec.is_fence opening).
    rewrite Hopen. unfold do_fence. rewrite Hcb. reflexivity. }
  rewrite Ho. now rewrite for_lines_buffer.
Qed.

End Effects.

(* ================================================================== *)
(** ** Further properties of the kinds of lines *)

Lemma strip_keeps_head (c : N) (rest : str) :
  is_space c = false -> exists t, strip (c :: rest) = c :: t.
Proof.
  intros Hc. unfold strip. simpl lstrip. rewrite Hc.
  unfold rstrip. simpl rev.
  destruct (@lstrip_keeps_last c (rev rest) Hc) as [l' Hl]. rewrite Hl.
  rewrite rev_app_distr. simpl. now exists (rev l').
Qed.

Lemma lstrip_all_space (s : str) :
  forallb is_space s = true -> lstrip s = [].
Proof.
  induction s as [|c s IH]; [reflexivity|].
  simpl. intros H. apply andb_true_iff in H as [Hc Hs].
  rewrite Hc. now apply IH.
Qed.

Lemma strip_all_space (s : str) :
  forallb is_space s = true -> strip s = [].
Proof. intros H. unfold strip. now rewrite lstrip_all_space. Qed.

Section MoreMatcherFacts.

Variable uni_decimal : N -> bool.

Local Abbreviation attempt := (Re.attempt uni_decimal).
Local Abbreviation scan := (Re.scan uni_decimal).
Local Abbreviation finditer := (Re.finditer uni_decimal).
Local Abbreviation re_match := (Re.re_match uni_decimal).
Local Abbreviation re_sub := (Re.re_sub uni_decimal).
Local Abbreviation is_decimal := (Re.is_decimal uni_decimal).

(** A greedy repetition cannot pass a character that is not of its
    class. *)
Lemma rep_greedy_blocked (R : Type) (ok : N -> bool)
      (k : nat -> str -> option R) (c : N) (r : str) (pos : nat) :
  ok c = false -> rep ok true k 0 pos (c :: r) = k pos (c :: r).
Proof. intros H. cbn [rep]. now rewrite H. Qed.

(** A pattern anchored at the start matches nowhere else. *)
Lemma scan_bol_later (p : regex) (text : str) :
  forall s pos skip, 0 < pos -> scan (Bol :: p) text pos s skip = [].
Proof.
  induction s as [|c s IH]; intros pos skip Hpos.
  - destruct skip; [|reflexivity]. cbn [Re.scan Re.attempt].
    destruct pos; [lia | reflexivity].
  - destruct skip as [|skip]; cbn [Re.scan Re.attempt].
    + destruct pos; [lia|]. cbn [Nat.eqb]. apply IH. lia.
    + apply IH. lia.
Qed.

(** A decimal digit is none of the marks that start a line. *)
Lemma decimal_is_not (x d : N) :
  is_decimal d = true -> (x < 48 \/ 57 < x)%N -> (x < 128)%N ->
  N.eqb x d = false.
Proof.
  unfold Re.is_decimal. intros Hd Hx Hascii. apply N.eqb_neq. intros <-.
  destruct (N.ltb_spec x 128); [|lia].
  apply andb_true_iff in Hd as [H1 H2].
  apply N.leb_le in H1, H2. lia.
Qed.

(** The numbered pattern on digits, a dot, one white space. *)
Lemma numbered_attempt (d : N) (ds : str) (sp : N) (rest : str) :
  is_decimal d = true -> forallb is_decimal ds = true ->
  is_space sp = true ->
  attempt numbered_re 0 (d :: ds ++ chr "." :: sp :: rest) no_marks
  = Some (length ds + 3, no_marks).
Proof.
  intros Hd Hds Hsp. unfold numbered_re. cbn [Re.attempt Nat.eqb rep].
  change (atom_ok uni_decimal Digit d) with (is_decimal d). rewrite Hd.
  apply rep_greedy_take; [exact Hds|].
  rewrite rep_greedy_blocked by reflexivity.
  cbn [Re.attempt].
  change (atom_ok uni_decimal (Lit (chr ".")) (chr ".")) with true.
  change (atom_ok uni_decimal Space sp) with (is_space sp). rewrite Hsp.
  cbv iota. f_equal. f_equal. lia.
Qed.

Lemma numbered_sub (d : N) (ds : str) (sp : N) (rest : str) :
  is_decimal d = true -> forallb is_decimal ds = true ->
  is_space sp = true ->
  re_match numbered_re (d :: ds ++ chr "." :: sp :: rest)
  = Some {| m_start := 0; m_end := length ds + 3; m_groups := [] |}
  /\ re_sub numbered_re [] (d :: ds ++ chr "." :: sp :: rest) = rest.
Proof.
  intros Hd Hds Hsp.
  pose proof (@numbered_attempt d ds sp rest Hd Hds Hsp) as H.
  split.
  - unfold Re.re_match. now rewrite H.
  - unfold Re.re_sub, Re.finditer. cbn [Re.scan]. rewrite H.
    unfold numbered_re at 1. rewrite scan_bol_later by lia.
    cbn [Re.sub_from mk_match m_start m_end fst]. unfold slice.
    cbn [Nat.sub firstn app].
    replace (d :: ds ++ chr "." :: sp :: rest)
      with ((d :: ds ++ [chr "."; sp]) ++ rest)
      by (simpl; now rewrite <- app_assoc).
    replace (length ds + 3) with (length (d :: ds ++ [chr "."; sp]))
      by (simpl; rewrite length_app; simpl; lia).
    rewrite skipn_app, skipn_all, Nat.sub_diag. reflexivity.
Qed.

End MoreMatcherFacts.

Section Lines.

Variable uni_decimal : N -> bool.
Variable env : Env.

Local Abbreviation step := (Tool.step uni_decimal env).
Local Abbreviation re_match := (Re.re_match uni_decimal).
Local Abbreviation paragraph_runs := (Tool.paragraph_runs uni_decimal).
Local Abbreviation is_decimal := (Re.is_decimal uni_decimal).

(** X5. Outside a code block, a line of [k] hashes, a space and a text
    that python-docx accepts is a heading of level [k] with that text for
    [k] from 1 to 4; with five hashes or more it is no heading but an
    ordinary paragraph, hashes included.  A line that starts with a dash or
    a star and a space is a bullet item with the text after them, whatever
    else the text holds. *)
Theorem hash_and_bullet_lines
        (k : nat) (text : str) (content : list str) (w : world) :
  xml_compatible text = true ->
  let st := {| code_block := false; code_content := content |} in
  let line := repeat (chr "#") k ++ chr " " :: text in
  (1 <= k <= 4 ->
   step st line w
   = (Ok st, {| w_doc := w_doc w ++ [Heading text k]; w_log := w_log w |}))
  /\ (5 <= k ->
      step st line w
      = (Ok st,
         {| w_doc := w_doc w ++
                     [Para {| p_style := None; p_alignment := None;
                              p_runs := paragraph_runs line |}];
            w_log := w_log w |}))
  /\ (forall mark, mark = chr "-" \/ mark = chr "*" ->
      step st (mark :: chr " " :: text) w
      = (Ok st,
         {| w_doc := w_doc w ++
                     [Para (new_paragraph text (Some (u "List Bullet")))];
            w_log := w_log w |})).
Proof.
  intros Hx st line. split; [|split].
  - intros Hk. subst line.
    assert (Hstep : step st (repeat (chr "#") k ++ chr " " :: text) w
                    = (add_heading env text k ;; ret st) w)
      by (destruct k as [|[|[|[|[|k]]]]]; try lia; reflexivity).
    rewrite Hstep, add_heading_ok by exact Hx. reflexivity.
  - intros Hk. subst line.
    do 5 (destruct k as [|k]; [lia|]).
    set (line := repeat (chr "#") (S (S (S (S (S k))))) ++ chr " " :: text).
    assert (Hline : xml_compatible line = true).
    { unfold line. rewrite compatible_app, compatible_repeat by reflexivity.
      cbn [andb xml_compatible forallb]. exact Hx. }
    destruct (@strip_keeps_head (chr "#") (tl line) eq_refl) as [t Ht].
    change (chr "#" :: tl line) with line in Ht.
    unfold Tool.step.
    change (startswith FENCE line) with false.
    change (startswith (u "# ") line) with false.
    change (startswith (u "## ") line) with false.
    change (startswith (u "### ") line) with false.
    change (startswith (u "#### ") line) with false.
    change (startswith (u "- ") line) with false.
    change (startswith (u "* ") line) with false.
    change (re_match numbered_re line) with (@None rmatch).
    change (re_match image_test_re line) with (@None rmatch).
    rewrite Ht. cbn [code_block st orb is_some].
    rewrite andb_false_r. cbn [startswith Str.eqb].
    unfold bind. rewrite do_paragraph_ok by exact Hline. reflexivity.
  - intros mark Hmark.
    assert (Hstep : step st (mark :: chr " " :: text) w
                    = (add_paragraph env text (Some (u "List Bullet"))
                       ;; ret st) w)
      by (destruct Hmark as [->| ->]; reflexivity).
    rewrite Hstep, add_paragraph_ok by exact Hx. reflexivity.
Qed.

(** X6. Outside a code block, a line made of decimal digits, a dot, one
    white space character and a text that python-docx accepts is a
    numbered item whose text is what follows the white space, as it is. *)
Theorem numbered_lines
        (d : N) (ds : str) (sp : N) (text : str) (st : pstate) (w : world) :
  code_block st = false ->
  is_decimal d = true -> forallb is_decimal ds = true ->
  is_space sp = true ->
  xml_compatible text = true ->
  step st (d :: ds ++ chr "." :: sp :: text) w
  = (Ok st,
     {| w_doc := w_doc w ++
                 [Para (new_paragraph text (Some (u "List Number")))];
        w_log := w_log w |}).
Proof.
  intros Hcb Hd Hds Hsp Hx.
  destruct (@numbered_sub uni_decimal d ds sp text Hd Hds Hsp) as [Hm Hsub].
  assert (Hmark : forall x, (x < 48 \/ 57 < x)%N -> (x < 128)%N ->
                            N.eqb x d = false)
    by (intros x Hx0 Ha; exact (@decimal_is_not uni_decimal x d Hd Hx0 Ha)).
  set (line := d :: ds ++ chr "." :: sp :: text) in *.
  assert (Hlit : forall lit,
             (exists x p, lit = x :: p
                          /\ (((x <? 48) || (57 <? x)) && (x <? 128))%N
                             = true) ->
             startswith lit line = false).
  { intros lit (x & p & -> & Hx0). apply startswith_head_differs.
    apply andb_true_iff in Hx0 as [Hx0 Ha]. apply N.ltb_lt in Ha.
    apply orb_true_iff in Hx0.
    apply Hmark; [|exact Ha].
    destruct Hx0 as [Hx0|Hx0]; apply N.ltb_lt in Hx0; [now left | now right]. }
  unfold Tool.step.
  rewrite Hcb, Hm, Hsub, !Hlit
    by (do 2 eexists; split; [reflexivity | reflexivity]).
  cbn [orb is_some]. rewrite add_paragraph_ok by exact Hx.
  reflexivity.
Qed.

(** No decimal digit of the Unicode database is white space. *)
Hypothesis decimal_not_space :
  forall c, is_space c = true -> uni_decimal c = false.

(** X7. Outside a code block, a line of white space only, the empty line
    among them, adds a paragraph without any run. *)
Theorem blank_lines (line : str) (st : pstate) (w : world) :
  code_block st = false ->
  forallb is_space line = true ->
  step st line w
  = (Ok st,
     {| w_doc := w_doc w ++
                 [Para {| p_style := None; p_alignment := None;
                          p_runs := [] |}];
        w_log := w_log w |}).
Proof.
  intros Hcb Hline.
  pose proof (strip_all_space line Hline) as Hstrip.
  destruct line as [|c rest].
  - unfold Tool.step. rewrite Hcb. reflexivity.
  - simpl in Hline. apply andb_true_iff in Hline as [Hc _].
    destruct (@bar_line_reaches_table uni_decimal decimal_not_space c rest
                (or_intror Hc))
      as (F & H1 & H2 & H3 & H4 & B1 & B2 & Hn & Hi).
    unfold Tool.step.
    rewrite F, Hcb, H1, H2, H3, H4, B1, B2, Hn, Hi, Hstrip.
    cbn [orb is_some startswith]. rewrite andb_false_r. reflexivity.
Qed.

End Lines.

Section Pictures.

Variable uni_decimal : N -> bool.
Variable env : Env.

Local Abbreviation step := (Tool.step uni_decimal env).
Local Abbreviation re_match := (Re.re_match uni_decimal).

(** What an image line does when its path exists and python-docx accepts
    the alternative text and the error of the loader. *)
Lemma found_image (st : pstate) (line : str) (m : rmatch) (w : world) :
  code_block st = false ->
  re_match image_re line = Some m ->
  path_exists env (resolve (group m 2)) = true ->
  xml_compatible (group m 1) = true ->
  (forall e, picture_fault env (resolve (group m 2)) = Some e ->
             xml_compatible (exn_str e) = true) ->
  let alt_text := group m 1 in
  let img_path := resolve (group m 2) in
  step st line w
  = (Ok st,
     {| w_doc :=
          match picture_fault env img_path with
          | Some img_error =>
              w_doc w ++
              [Para picture_paragraph;
               Para (new_paragraph (not_loaded_text alt_text img_error) None)]
          | None =>
              w_doc w ++
              Para (with_picture img_path picture_paragraph)
              :: (if nonempty alt_text
                  then [Para (caption_paragraph alt_text)] else [])
          end;
        w_log := (w_log w ++ [EExists img_path]) ++ [EAddPicture img_path] |}).
Proof.
  intros Hcb Hm Hex Halt Herr alt_text img_path.
  rewrite (@image_line_reaches_branch uni_decimal env line m Hm st Hcb).
  unfold Tool.do_image. rewrite Hm.
  fold alt_text. fold img_path. unfold img_path at 2. rewrite Hex.
  unfold bind at 1 2, log at 1. cbn [w_doc w_log].
  destruct (picture_branch env alt_text img_path (w_doc w)
              (w_log w ++ [EExists img_path]))
    as (o & added & H & _ & Hok).
  destruct (Hok Halt Herr) as [-> ->]. rewrite H.
  unfold ret. now destruct (picture_fault env img_path).
Qed.

(** X8. Outside a code block, an image line whose resolved path exists
    and loads, and whose alternative text python-docx accepts, adds a
    centred paragraph holding the picture, six inches wide, and after it,
    when the alternative text is not empty, a centred caption in italics
    of size 10 with that text; the path is looked up and then loaded. *)
Theorem loaded_image (st : pstate) (line : str) (m : rmatch) (w : world) :
  code_block st = false ->
  re_match image_re line = Some m ->
  path_exists env (resolve (group m 2)) = true ->
  picture_fault env (resolve (group m 2)) = None ->
  xml_compatible (group m 1) = true ->
  let alt_text := group m 1 in
  let img_path := resolve (group m 2) in
  step st line w
  = (Ok st,
     {| w_doc :=
          w_doc w ++
          Para {| p_style := None; p_alignment := Some CENTER;
                  p_runs := [ {| r_text := []; r_bold := false;
                                 r_italic := false; r_font := None;
                                 r_size := None;
                                 r_picture := Some (img_path, 6) |} ] |}
          :: match alt_text with
             | [] => []
             | _ =>
                 [Para {| p_style := None; p_alignment := Some CENTER;
                          p_runs := [ {| r_text := alt_text;
                                         r_bold := false; r_italic := true;
                                         r_font := None; r_size := Some 10;
                                         r_picture := None |} ] |}]
             end;
        w_log := w_log w ++ [EExists img_path; EAddPicture img_path] |}).
Proof.
  intros Hcb Hm Hex Hload Halt alt_text img_path.
  rewrite (@found_image st line m w Hcb Hm Hex Halt)
    by (intros e He; congruence).
  fold alt_text. fold img_path. unfold img_path at 1. rewrite Hload.
  rewrite <- app_assoc. destruct alt_text; reflexivity.
Qed.

(** X9. Outside a code block, when the picture of an image line exists
    but cannot be loaded, and python-docx accepts the alternative text and
    the text of the error, the empty centred paragraph made for the
    picture stays in the document, followed by the paragraph
    [[Image: alt - Could not load: error]]; nothing is raised and the
    local state is unchanged. *)
Theorem unloadable_image
        (st : pstate) (line : str) (m : rmatch) (e : exn) (w : world) :
  code_block st = false ->
  re_match image_re line = Some m ->
  path_exists env (resolve (group m 2)) = true ->
  picture_fault env (resolve (group m 2)) = Some e ->
  xml_compatible (group m 1) = true ->
  xml_compatible (exn_str e) = true ->
  let alt_text := group m 1 in
  let img_path := resolve (group m 2) in
  step st line w
  = (Ok st,
     {| w_doc :=
          w_doc w ++
          [Para {| p_style := None; p_alignment := Some CENTER;
                   p_runs := [text_run []] |};
           Para {| p_style := None; p_alignment := None;
                   p_runs :=
                     [text_run (u "[Image: " ++ alt_text
                                ++ u " - Could not load: " ++ exn_str e
                                ++ u "]")] |}];
        w_log := w_log w ++ [EExists img_path; EAddPicture img_path] |}).
Proof.
  intros Hcb Hm Hex Hload Halt He alt_text img_path.
  rewrite (@found_image st line m w Hcb Hm Hex Halt)
    by (intros e' He'; congruence).
  fold alt_text. fold img_path. unfold img_path at 1. rewrite Hload.
  now rewrite <- app_assoc.
Qed.

(** X10. The patterns of lines 109 and 110 match the same lines: a line
    that passes the test of line 109 always has the match object of line
    110, at the start of the line, so the [if match] of line 111 never
    fails. *)
Theorem image_patterns_agree (line : str) :
  is_some (re_match image_test_re line) = is_some (re_match image_re line)
  /\ (is_some (re_match image_test_re line) = true ->
      exists m, re_match image_re line = Some m /\ m_start m = 0
                /\ m_start m <= m_end m).
Proof.
  assert (H : is_some (re_match image_test_re line)
              = is_some (re_match image_re line)).
  { change image_test_re with (Re.erase image_re). apply re_match_erase. }
  split; [exact H|]. rewrite H.
  unfold Re.re_match.
  destruct (Re.attempt uni_decimal image_re 0 line no_marks) as [r|] eqn:E;
    [|discriminate].
  intros _. exists (mk_match line 0 r). split; [reflexivity|].
  split; [reflexivity|]. simpl. now apply attempt_end_ge in E.
Qed.

End Pictures.

(* ================================================================== *)
(** ** Further properties of the inline formatting *)


Section SpanFacts.

Variable uni_decimal : N -> bool.

Local Abbreviation attempt := (Re.attempt uni_decimal).
Local Abbreviation scan := (Re.scan uni_decimal).
Local Abbreviation finditer := (Re.finditer uni_decimal).














End SpanFacts.








Section Spans.

Variable uni_decimal : N -> bool.

Local Abbreviation finditer := (Re.finditer uni_decimal).
Local Abbreviation all_matches := (Tool.all_matches uni_decimal).
Local Abbreviation paragraph_runs := (Tool.paragraph_runs uni_decimal).




(** The entries of [all_matches] are in the order of their starts. *)
Lemma insert_keeps_sorted (x : fmt * rmatch) (l : list (fmt * rmatch)) :
  sorted_by_start l = true -> sorted_by_start (insert_by_start x l) = true.
Proof.
  induction l as [|y l IH]; intros H; [reflexivity|].
  cbn [insert_by_start].
  destruct (m_start (snd x) <=? m_start (snd y)) eqn:E.
  - cbn [sorted_by_start]. cbn [sorted_by_start] in H. now rewrite E.
  - assert (Hyx : (m_start (snd y) <=? m_start (snd x)) = true).
    { apply Nat.leb_le. apply Nat.leb_gt in E. lia. }
    assert (Hl : sorted_by_start l = true).
    { cbn [sorted_by_start] in H. destruct l; [reflexivity|].
      now apply andb_true_iff in H as [_ H]. }
    specialize (IH Hl).
    destruct l as [|z l].
    + cbn [insert_by_start sorted_by_start]. now rewrite Hyx.
    + cbn [insert_by_start] in IH |- *.
      cbn [sorted_by_start] in H. apply andb_true_iff in H as [Hyz _].
      destruct (m_start (snd x) <=? m_start (snd z)).
      * cbn [sorted_by_start] in IH |- *. now rewrite Hyx.
      * change (sorted_by_start (y :: z :: insert_by_start x l))
          with ((m_start (snd y) <=? m_start (snd z))
                && sorted_by_start (z :: insert_by_start x l)).
        now rewrite Hyz.
Qed.

(** X14. Whatever the text, the matches that the rebuilding loop walks
    are in the order of their starts, each is a match of one of the three
    patterns on the text, under its own tag, and none is empty. *)
Theorem all_matches_sorted (text : str) :
  sorted_by_start (all_matches text) = true
  /\ forall f m,
      In (f, m) (all_matches text) ->
      In m (finditer match f with
                     | Bold => bold_pattern
                     | Italic => italic_pattern
                     | Code => code_inline_pattern
                     end text)
      /\ m_start m < m_end m.
Proof.
  split.
  - unfold Tool.all_matches, sort_by_start.
    induction (keep_italics (finditer italic_pattern text)
                 (map (pair Bold) (finditer bold_pattern text))
               ++ map (pair Code) (finditer code_inline_pattern text))
      as [|x l IH]; [reflexivity|].
    cbn [fold_right]. now apply insert_keeps_sorted.
  - intros f m Hin. unfold Tool.all_matches in Hin.
    apply -> sort_by_start_in in Hin.
    assert (Hfrom : In m (finditer match f with
                                   | Bold => bold_pattern
                                   | Italic => italic_pattern
                                   | Code => code_inline_pattern
                                   end text)).
    { apply in_app_or in Hin as [Hin|Hin].
      - apply kept_from in Hin as [Hin|[-> Hin]]; [|exact Hin].
        apply in_map_iff in Hin as (m0 & Hm0 & Hin).
        inversion Hm0; subst. exact Hin.
      - apply in_map_iff in Hin as (m0 & Hm0 & Hin).
        inversion Hm0; subst. exact Hin. }
    split; [exact Hfrom|].
    apply scan_in in Hfrom as (s' & r & Hr & Hm).
    rewrite Hm. cbn [mk_match m_start m_end].
    destruct f; apply attempt_one_end_gt in Hr; exact Hr.
Qed.

End Spans.

(* ================================================================== *)
(** ** Further properties of paths, lines and the other functions *)

Section PlainParagraph.

Variable uni_decimal : N -> bool.
Variable env : Env.

(** X15. Outside a code block, a line that no earlier rule takes, that
    holds no star and no backtick and that python-docx accepts becomes a
    paragraph with one plain run, made by [add_run] on the line as it
    is. *)
Theorem plain_paragraph_line (line : str) (st : pstate) (w : world) :
  code_block st = false ->
  Spec.classify uni_decimal false line = Spec.TParagraph ->
  ~ In (chr "*") line -> ~ In (chr "`") line ->
  xml_compatible line = true ->
  Tool.step uni_decimal env st line w
  = (Ok st,
     {| w_doc := w_doc w ++
                 [Para {| p_style := None; p_alignment := None;
                          p_runs := [text_run line] |}];
        w_log := w_log w |}).
Proof.
  intros Hcb Hclass Hstar Htick Hx.
  rewrite step_performs, Hcb, Hclass. cbn [Spec.perform].
  unfold bind. rewrite do_paragraph_ok by exact Hx.
  destruct (@plain_line_one_run uni_decimal line Hstar Htick) as [Hruns _].
  rewrite Hruns. reflexivity.
Qed.

End PlainParagraph.

(** *** The chart path *)

Lemma resolve_starts (img_path : str) :
  startswith CHARTS_REL img_path = true ->
  exists t, resolve img_path = CHARTS_OUT ++ t.
Proof.
  intros H. unfold resolve. rewrite H.
  rewrite (startswith_split _ _ H).
  change (Str.replace CHARTS_REL CHARTS_OUT
            (CHARTS_REL ++ skipn (length CHARTS_REL) img_path))
    with (Str.replace_from CHARTS_REL CHARTS_OUT
            (chr "." :: tl CHARTS_REL ++ skipn (length CHARTS_REL) img_path)
            0).
  cbn [Str.replace_from].
  change (chr "." :: tl CHARTS_REL ++ skipn (length CHARTS_REL) img_path)
    with (CHARTS_REL ++ skipn (length CHARTS_REL) img_path).
  rewrite startswith_app. eexists. reflexivity.
Qed.

(** X16. The chart path: a path that does not start with [../charts/] is
    looked up as it is; a path that holds [../charts/] at its start and
    nowhere else is looked up with [outputs/charts/] in its place; and the
    path that is looked up never starts with [../charts/], so that
    resolving it again changes nothing. *)
Theorem chart_rewrite_facts :
  (forall img_path,
      startswith CHARTS_REL img_path = false -> resolve img_path = img_path)
  /\ (forall rest,
        Str.contains CHARTS_REL rest = false ->
        resolve (CHARTS_REL ++ rest) = CHARTS_OUT ++ rest)
  /\ (forall img_path,
        startswith CHARTS_REL (resolve img_path) = false
        /\ resolve (resolve img_path) = resolve img_path).
Proof.
  split; [exact resolve_other|]. split; [exact resolve_single|].
  intros img_path.
  assert (H : startswith CHARTS_REL (resolve img_path) = false).
  { destruct (startswith CHARTS_REL img_path) eqn:E.
    - destruct (resolve_starts _ E) as [t Ht]. rewrite Ht. reflexivity.
    - now rewrite resolve_other. }
  split; [exact H | now apply resolve_other].
Qed.

(** *** [os.path.dirname] and [os.path.join] *)

Lemma after_last_app (sep : N) (f : str) :
  ~ In sep f ->
  forall a, Path.after_last sep (a ++ sep :: f) = S (length a).
Proof.
  intros Hf. induction a as [|c a IH].
  - cbn [app Path.after_last length].
    rewrite (@after_last_absent ascii_decimals sep f Hf).
    now rewrite N.eqb_refl.
  - cbn [app Path.after_last length]. now rewrite IH.
Qed.

Lemma str_eqb_eq (a b : str) : Str.eqb a b = true -> a = b.
Proof.
  revert b. induction a as [|x a IH]; intros [|y b] H;
    try reflexivity; try discriminate.
  simpl in H. apply andb_true_iff in H as [Hx Hab].
  apply N.eqb_eq in Hx. subst. f_equal. now apply IH.
Qed.

Lemma not_all_sep (sep c : N) (h : str) :
  In c h -> c <> sep -> Str.eqb h (repeat sep (length h)) = false.
Proof.
  intros Hin Hc. destruct (Str.eqb h (repeat sep (length h))) eqn:E;
    [|reflexivity].
  apply str_eqb_eq in E. rewrite E in Hin.
  apply repeat_spec in Hin. contradiction.
Qed.

(** The directory of a file in a directory [d] whose name ends with
    something else than a slash is [d]. *)
Lemma dirname_of_file (d0 : str) (c : N) (f : str) :
  c <> Path.SEP -> ~ In Path.SEP f ->
  Path.dirname ((d0 ++ [c]) ++ Path.SEP :: f) = d0 ++ [c].
Proof.
  intros Hc Hf. unfold Path.dirname.
  rewrite after_last_app by exact Hf.
  replace (firstn (S (length (d0 ++ [c]))) ((d0 ++ [c]) ++ Path.SEP :: f))
    with ((d0 ++ [c]) ++ [Path.SEP]).
  2:{ replace ((d0 ++ [c]) ++ Path.SEP :: f)
        with (((d0 ++ [c]) ++ [Path.SEP]) ++ f)
        by (now rewrite <- !app_assoc).
      replace (S (length (d0 ++ [c])))
        with (length ((d0 ++ [c]) ++ [Path.SEP]))
        by (rewrite !length_app; simpl; lia).
      now rewrite firstn_app, firstn_all, Nat.sub_diag, firstn_O, app_nil_r. }
  rewrite (@not_all_sep Path.SEP c ((d0 ++ [c]) ++ [Path.SEP]));
    [| apply in_or_app; left; apply in_or_app; right; now left | exact Hc].
  destruct ((d0 ++ [c]) ++ [Path.SEP]) eqn:E.
  { destruct d0; discriminate E. }
  rewrite <- E. unfold Path.rstrip_chr.
  rewrite !rev_app_distr. cbn [rev app Path.lstrip_chr].
  rewrite N.eqb_refl.
  assert (Hcs : N.eqb c Path.SEP = false) by now apply N.eqb_neq.
  rewrite Hcs. cbn [rev]. now rewrite rev_involutive.
Qed.

Section Directories.

Variable uni_decimal : N -> bool.
Variable env : Env.

Local Abbreviation _run := (Tool._run uni_decimal env).


(** X18. Without an output path the document goes to
    [outputs/reports/data_analysis_report_<stamp>.docx], and as long as
    the stamp holds no slash the directory that is created is
    [outputs/reports]: the creation never fails for want of a directory
    part. *)
Theorem default_output_directory :
  ~ In Path.SEP (now_stamp env) ->
  Spec.target env None
  = u "outputs/reports/data_analysis_report_" ++ now_stamp env ++ u ".docx"
  /\ Path.dirname (Spec.target env None) = u "outputs/reports"
  /\ makedirs_fault env (Path.dirname (Spec.target env None))
     = mkdir_fault env (u "outputs/reports").
Proof.
  intros Hstamp.
  assert (Hdir : Path.dirname (Spec.target env None) = u "outputs/reports").
  { cbn [Spec.target]. unfold default_path.
    change (u "outputs/reports/data_analysis_report_" ++ now_stamp env
            ++ u ".docx")
      with ((u "outputs/report" ++ [chr "s"]) ++ Path.SEP
            :: (u "data_analysis_report_" ++ now_stamp env ++ u ".docx")).
    rewrite dirname_of_file; [reflexivity | discriminate |].
    intros Hin. apply in_app_or in Hin as [Hin|Hin].
    - vm_compute in Hin.
      repeat (destruct Hin as [Hin|Hin]; [discriminate Hin|]). exact Hin.
    - apply in_app_or in Hin as [Hin|Hin]; [now apply Hstamp|].
      vm_compute in Hin.
      repeat (destruct Hin as [Hin|Hin]; [discriminate Hin|]). exact Hin. }
  split; [reflexivity|]. split; [exact Hdir|]. now rewrite Hdir.
Qed.

End Directories.

(** *** [str.split] and [str.join] *)

Lemma split_not_nil (sep : N) (s : str) : split sep s <> [].
Proof.
  destruct s as [|c s]; simpl; [discriminate|].
  destruct (N.eqb c sep); [discriminate|].
  destruct (split sep s); discriminate.
Qed.

(** X19. Splitting a text at a separator and joining the pieces with it
    gives the text back; no piece holds the separator, there is always at
    least one piece, and there is one piece more than separators.  So the
    lines of the markdown lose nothing, and no line holds a newline. *)
Theorem split_join_round_trip (sep : N) (s : str) :
  join [sep] (split sep s) = s
  /\ (forall piece, In piece (split sep s) -> ~ In sep piece)
  /\ length (split sep s) = S (count_occ N.eq_dec s sep).
Proof.
  induction s as [|c s (IHj & IHn & IHl)].
  - split; [reflexivity|]. split; [|reflexivity].
    intros piece [<-|[]] [].
  - cbn [split]. destruct (N.eqb_spec c sep) as [->|Hc].
    + split; [|split].
      * pose proof (@split_not_nil sep s) as Hne.
        destruct (split sep s) as [|w ws]; [contradiction|].
        change (join [sep] ([] :: w :: ws))
          with ([] ++ [sep] ++ join [sep] (w :: ws)).
        now rewrite IHj.
      * intros piece [<-|Hin]; [intros [] | now apply IHn].
      * cbn [length count_occ]. rewrite IHl.
        destruct (N.eq_dec sep sep); [reflexivity | contradiction].
    + pose proof (@split_not_nil sep s) as Hne.
      destruct (split sep s) as [|w ws]; [contradiction|].
      split; [|split].
      * destruct ws as [|w2 ws].
        -- change (join [sep] [w]) with w in IHj. now rewrite <- IHj.
        -- change (join [sep] ((c :: w) :: w2 :: ws))
             with (c :: (w ++ [sep] ++ join [sep] (w2 :: ws))).
           change (join [sep] (w :: w2 :: ws))
             with (w ++ [sep] ++ join [sep] (w2 :: ws)) in IHj.
           now rewrite IHj.
      * intros piece [<-|Hin].
        -- intros [Hin|Hin]; [now apply Hc|].
           apply (IHn w); [now left | exact Hin].
        -- apply IHn. now right.
      * cbn [length count_occ] in *. rewrite IHl.
        destruct (N.eq_dec c sep); [contradiction | reflexivity].
Qed.

(** *** [main.run] *)

Lemma endswith_data (path : str) :
  Main.endswith_chr Path.SEP (path ++ u "data") = false.
Proof.
  unfold Main.endswith_chr. rewrite rev_app_distr. reflexivity.
Qed.

Lemma join_step_plain (path b : str) :
  startswith [Path.SEP] b = false -> path <> [] ->
  Main.endswith_chr Path.SEP path = false ->
  Main.join_step path b = path ++ [Path.SEP] ++ b.
Proof.
  intros Hb Hne Hend. unfold Main.join_step. rewrite Hb, Hend.
  destruct path; [contradiction | reflexivity].
Qed.

(** X21. The data file is looked for beside the program: when the
    absolute path of [main.py] is [dir/name], the [file_path] handed to the
    crew is [dir/data/data.csv]; and for a program in the root directory it
    is [/data/data.csv]. *)
Theorem data_file_beside_main (d0 : str) (c : N) (name : str) :
  ~ In Path.SEP name ->
  (c <> Path.SEP ->
   Main.data_path ((d0 ++ [c]) ++ Path.SEP :: name)
   = (d0 ++ [c]) ++ u "/data/data.csv")
  /\ Main.data_path (Path.SEP :: name) = u "/data/data.csv".
Proof.
  intros Hname. split.
  - intros Hc. unfold Main.data_path.
    rewrite dirname_of_file by assumption.
    unfold Main.join. cbn [fold_left].
    rewrite (@join_step_plain (d0 ++ [c]) (u "data")).
    + rewrite join_step_plain.
      * now rewrite <- !app_assoc.
      * reflexivity.
      * destruct d0; discriminate.
      * replace ((d0 ++ [c]) ++ [Path.SEP] ++ u "data")
          with (((d0 ++ [c]) ++ [Path.SEP]) ++ u "data")
          by (now rewrite <- !app_assoc).
        apply endswith_data.
    + reflexivity.
    + destruct d0; discriminate.
    + unfold Main.endswith_chr. rewrite rev_app_distr. cbn [rev app].
      now apply N.eqb_neq.
  - unfold Main.data_path, Path.dirname.
    pose proof (@after_last_app Path.SEP name Hname []) as H.
    cbn [app length] in H. rewrite H. reflexivity.
Qed.

(* ================================================================== *)
(** ** Further properties: what is dropped and what is never touched *)

Lemma split_absent (sep : N) (s : str) :
  ~ In sep s -> split sep s = [s].
Proof.
  induction s as [|c s IH]; intros H; [reflexivity|].
  cbn [split].
  destruct (N.eqb_spec c sep) as [->|_]; [exfalso; apply H; now left|].
  rewrite IH by (intros Hin; apply H; now right). reflexivity.
Qed.

Section Dropped.

Variable uni_decimal : N -> bool.
Variable env : Env.

Local Abbreviation step := (Tool.step uni_decimal env).
Local Abbreviation for_lines := (Tool.for_lines uni_decimal env).

(** X22. Outside a code block, a line that starts with a bar and holds no
    other bar has no cell at all (the cells lie between the first and the
    last bar), passes for a separator and is dropped: it adds nothing to
    the document, whatever its text. *)
Theorem lone_bar_line_is_dropped (rest : str) (st : pstate) (w : world) :
  code_block st = false ->
  ~ In BAR rest ->
  table_cells (BAR :: rest) = []
  /\ step st (BAR :: rest) w = (Ok st, w).
Proof.
  intros Hcb Hrest.
  assert (Hcells : table_cells (BAR :: rest) = []).
  { unfold table_cells. cbn [split]. rewrite N.eqb_refl.
    now rewrite split_absent. }
  split; [exact Hcells|].
  destruct (@strip_keeps_head BAR rest eq_refl) as [t Ht].
  unfold Tool.step. rewrite Hcb.
  change (startswith FENCE (BAR :: rest)) with false.
  change (startswith (u "# ") (BAR :: rest)) with false.
  change (startswith (u "## ") (BAR :: rest)) with false.
  change (startswith (u "### ") (BAR :: rest)) with false.
  change (startswith (u "#### ") (BAR :: rest)) with false.
  change (startswith (u "- ") (BAR :: rest)) with false.
  change (startswith (u "* ") (BAR :: rest)) with false.
  change (Re.re_match uni_decimal numbered_re (BAR :: rest))
    with (@None rmatch).
  change (Re.re_match uni_decimal image_test_re (BAR :: rest))
    with (@None rmatch).
  rewrite Ht.
  change (Str.contains [BAR] (BAR :: rest)) with true.
  change (startswith [BAR] (BAR :: t)) with true.
  cbn [orb andb is_some].
  unfold do_table. rewrite is_separator_dashes, Hcells. reflexivity.
Qed.

(** A line that does not start with an exclamation mark leaves the log as
    it is, whether it returns or raises. *)
Lemma step_without_mark (st : pstate) (line : str) (w : world) :
  startswith [chr "!"] line = false ->
  exists o w', step st line w = (o, w') /\ w_log w' = w_log w.
Proof.
  intros Hmark.
  assert (Himg : Re.re_match uni_decimal image_test_re line = None).
  { destruct (Re.re_match uni_decimal image_test_re line) as [m|] eqn:E;
      [|reflexivity].
    unfold image_test_re in E.
    apply re_match_bol_one_head in E as (c & r & -> & Hc).
    change (N.eqb (chr "!") c = true) in Hc.
    cbn [startswith] in Hmark. rewrite Hc in Hmark. discriminate. }
  assert (Hone : forall (c : M unit) (P : outcome unit -> Prop),
             (exists o e,
                 c w = (o, {| w_doc := w_doc w ++ [e]; w_log := w_log w |})
                 /\ P o) ->
             exists o w', (c ;; ret st) w = (o, w') /\ w_log w' = w_log w).
  { intros c P (o & e & H & _). unfold bind. rewrite H.
    destruct o; do 2 eexists; split; reflexivity. }
  rewrite step_performs.
  unfold Spec.classify. rewrite Himg.
  destruct (startswith FENCE line).
  { cbn [Spec.perform]. unfold do_fence. destruct (code_block st).
    - cbn [negb]. unfold when.
      destruct (nonempty (code_content st)).
      + unfold bind at 1 2, add at 1, add_run.
        destruct (refused (r_text (code_run (code_content st)))).
        * unfold bind. rewrite update_last_app. unfold raise.
          do 2 eexists; split; reflexivity.
        * rewrite update_last_app. do 2 eexists; split; reflexivity.
      + do 2 eexists; split; reflexivity.
    - do 2 eexists; split; reflexivity. }
  destruct (code_block st); [do 2 eexists; split; reflexivity|].
  cbn [is_some].
  repeat match goal with
         | |- context [if ?b then _ else _] => destruct b
         end; cbn [Spec.perform];
    try (eapply Hone; apply add_heading_effect);
    try (eapply Hone; apply add_paragraph_effect).
  - unfold do_table. destruct (is_separator line).
    + do 2 eexists; split; reflexivity.
    + eapply Hone; apply add_paragraph_effect.
  - apply Hone with (P := fun _ => True).
    unfold do_paragraph, bind.
    change (add_paragraph env [] None w)
      with (Ok tt, {| w_doc := w_doc w ++ [Para (new_paragraph [] None)];
                      w_log := w_log w |}).
    cbv beta iota.
    destruct (add_runs_effect env (paragraph_runs uni_decimal line) (w_doc w)
                (new_paragraph [] None) (w_log w)) as (o & p' & H).
    exists o, (Para p'). now split.
Qed.

(** X23. Only image lines touch the file system during the pass: when no
    line starts with an exclamation mark, the pass makes no look-up and
    loads nothing, and the log is after the pass what it was before,
    whether the pass returns or raises. *)
Theorem only_image_lines_touch_files (lines : list str) :
  (forall l, In l lines -> startswith [chr "!"] l = false) ->
  forall st w,
    exists o w',
      for_lines lines st w = (o, w') /\ w_log w' = w_log w.
Proof.
  induction lines as [|line lines IH]; intros Hall st w.
  - exists (Ok st), w. split; reflexivity.
  - destruct (step_without_mark st line w (Hall line (or_introl eq_refl)))
      as (o1 & w1 & H1 & L1).
    cbn [Tool.for_lines]. unfold bind. rewrite H1.
    destruct o1 as [st1|e].
    + destruct (IH (fun l Hl => Hall l (or_intror Hl)) st1 w1)
        as (o & w' & H2 & L2).
      exists o, w'. split; [exact H2 | now rewrite L2].
    + exists (Raise e), w1. split; [reflexivity | exact L1].
Qed.

End Dropped.

(** *** A text that python-docx refuses *)

Lemma split_first_line (sep : N) (line rest : str) :
  ~ In sep line -> split sep (line ++ sep :: rest) = line :: split sep rest.
Proof.
  induction line as [|c line IH]; intros H.
  - cbn [app split]. now rewrite N.eqb_refl.
  - cbn [app split].
    destruct (N.eqb_spec c sep) as [->|_]; [exfalso; apply H; now left|].
    rewrite IH by (intros Hin; apply H; now right). reflexivity.
Qed.

Section Refused.

Variable uni_decimal : N -> bool.
Variable env : Env.

(** X24. A paragraph line that python-docx refuses makes the whole call
    fail: for a text whose first line is an ordinary paragraph without
    star and backtick and holds a character that is refused, the call
    returns the error message with the text of the exception; the
    paragraph has been added with what was written before the refused
    piece, the lines after it are not processed, no directory is created
    and nothing is saved. *)
Theorem refused_paragraph_fails_the_call
        (line rest piece : str) (out : option str) (w : world) :
  markdown2_fault env (line ++ NL :: rest) = None ->
  ~ In NL line ->
  Spec.classify uni_decimal false line = Spec.TParagraph ->
  ~ In (chr "*") line -> ~ In (chr "`") line ->
  refused line = Some piece ->
  Tool._run uni_decimal env (line ++ NL :: rest) out w
  = (Ok (error_text (refusal env piece)),
     {| w_doc := [TITLE;
                  Para {| p_style := None; p_alignment := None;
                          p_runs := [text_run (written line)] |}];
        w_log := w_log w |})
  /\ xml_compatible piece = false.
Proof.
  intros Hmd Hnl Hclass Hstar Htick Hpiece.
  split.
  - unfold Tool._run, try_except. rewrite convert_unfold, Hmd.
    rewrite split_first_line by exact Hnl.
    cbn [Tool.for_lines]. unfold bind at 1.
    rewrite step_performs. cbn [initial code_block]. rewrite Hclass.
    cbn [Spec.perform]. unfold bind at 1, do_paragraph, bind at 1.
    destruct (@plain_line_one_run uni_decimal line Hstar Htick) as [Hruns _].
    rewrite Hruns.
    change (add_paragraph env [] None (Spec.titled w))
      with (Ok tt, {| w_doc := [TITLE] ++ [Para (new_paragraph [] None)];
                      w_log := w_log w |}).
    cbv beta iota. cbn [add_runs]. unfold bind at 1, add_run.
    cbn [text_run r_text]. rewrite Hpiece.
    unfold bind. rewrite update_last_app. reflexivity.
  - destruct (xml_compatible piece) eqn:E; [|reflexivity].
    unfold refused in Hpiece.
    destruct (xml_compatible line) eqn:El.
    + rewrite write_pieces_whole in Hpiece by auto. discriminate.
    + destruct (@write_pieces_refuses line [] El) as (bad & Hbad & Hno).
      congruence.
Qed.

End Refused.

(* ================================================================== *)
(** ** The examples of the specification *)

(** A title, a bullet and a fenced block: the document holds the report
    title, the heading, the bullet and the code paragraph, in this order,
    and the call returns the success message with the path. *)
Example end_to_end :
  _run ascii_decimals quiet_env
       (Str.join [NL] [u "# Title"; u "- point"; u "```"; u "print(1)"; u "```"])
       (Some (u "out/report.docx")) empty_world
  = (Ok (u "Successfully converted markdown to DOCX: out/report.docx"),
     let doc :=
       [ Heading (u "Data Analysis Report") 0;
         Heading (u "Title") 1;
         Para (new_paragraph (u "point") (Some (u "List Bullet")));
         Para (code_paragraph [u "print(1)"]) ] in
     {| w_doc := doc;
        w_log := [EMakedirs (u "out"); ESave (u "out/report.docx") doc] |}).
Proof. reflexivity. Qed.

Example chart_path :
  resolve (u "../charts/x.png") = u "outputs/charts/x.png".
Proof. reflexivity. Qed.

Example separator_row :
  is_separator (u "|---|---|") = true /\ is_separator (u "| a | b |") = false.
Proof. split; reflexivity. Qed.

Example numbered_item :
  Re.re_sub ascii_decimals numbered_re [] (u "12. twelve") = u "twelve".
Proof. reflexivity. Qed.

Example default_target :
  Spec.target quiet_env None
  = u "outputs/reports/data_analysis_report_20240101_120000.docx"
  /\ Path.dirname (Spec.target quiet_env None) = u "outputs/reports".
Proof. split; reflexivity. Qed.

(* ================================================================== *)
(** ** The theorems at concrete inputs *)


Lemma pictures_loader : loader_errors_accepted pictures_env.
Proof. intros p e H. discriminate H. Qed.

Lemma broken_loader : loader_errors_accepted broken_pictures_env.
Proof. intros p e H. injection H as <-. reflexivity. Qed.




(** C6, amended, on the line [![alt](nope.png)]. *)
Lemma missing_image_witness :
  step ascii_decimals quiet_env initial (u "![alt](nope.png)") empty_world
  = (Ok initial,
     {| w_doc :=
          [Para {| p_style := None; p_alignment := None;
                   p_runs :=
                     [text_run (u "[Image: alt - File not found: nope.png]")]
                |}];
        w_log := [EExists (u "nope.png")] |}).
Proof.
  apply (proj1 (@missing_image ascii_decimals quiet_env initial
                  (u "![alt](nope.png)")
                  {| m_start := 0; m_end := 16;
                     m_groups := [u "alt"; u "nope.png"] |}
                  empty_world eq_refl eq_refl eq_refl));
    reflexivity.
Defined.

(** C6 as it is written fails on the line [![a<VT>](nope.png)], where
    [<VT>] is a vertical tab: the picture is missing, python-docx refuses
    the text of the placeholder, no paragraph with that text is added, the
    lines after it are not processed, and the call returns the error
    message. *)
Lemma missing_image_with_refused_text_fails :
  Re.re_match ascii_decimals image_re (u "![a" ++ VT :: u "](nope.png)")
  = Some {| m_start := 0; m_end := 15;
            m_groups := [[chr "a"; VT]; u "nope.png"] |}
  /\ path_exists quiet_env (resolve (u "nope.png")) = false
  /\ step ascii_decimals quiet_env initial (u "![a" ++ VT :: u "](nope.png)")
          empty_world
     = (Raise NOT_XML,
        {| w_doc := [Para {| p_style := None; p_alignment := None;
                             p_runs := [text_run []] |}];
           w_log := [EExists (u "nope.png")] |})
  /\ for_lines ascii_decimals quiet_env
               [u "![a" ++ VT :: u "](nope.png)"; u "# next"]
               initial empty_world
     = (Raise NOT_XML,
        {| w_doc := [Para {| p_style := None; p_alignment := None;
                             p_runs := [text_run []] |}];
           w_log := [EExists (u "nope.png")] |})
  /\ fst (_run ascii_decimals quiet_env
               (u "![a" ++ VT :: u "](nope.png)")
               (Some (u "out/r.docx")) empty_world)
     = Ok (error_text NOT_XML).
Proof. repeat split. Qed.





(* ================================================================== *)
(** ** The further properties at concrete inputs *)

Ltac not_in_literal :=
  let H := fresh in
  vm_compute; intros H;
  repeat (destruct H as [H|H]; [discriminate H|]); exact H.

(** X1 on a heading line: the saved document is the title and the
    heading. *)
Lemma saved_document_starts_with_title_witness :
  exists body,
    [Heading (u "Data Analysis Report") 0; Heading (u "T") 1] = TITLE :: body
    /\ length body <= 2 * length (split NL (u "# T")).
Proof.
  destruct (saved_document_starts_with_title ascii_decimals quiet_env
              (u "# T") (Some (u "out/r.docx")) empty_world)
    as (s & w' & new & Hrun & Hlog & Hall).
  vm_compute in Hrun. injection Hrun as _ Hw. subst w'.
  cbn [w_log empty_world app] in Hlog. subst new.
  destruct (Hall (u "out/r.docx")
                 [Heading (u "Data Analysis Report") 0; Heading (u "T") 1])
    as (_ & body & Hbody & Hlen).
  - vm_compute. right. left. reflexivity.
  - exists body. split; [exact Hbody | exact Hlen].
Defined.

(** X2 on an image line whose picture exists: it is loaded, after the
    look-up. *)
Lemma pictures_loaded_only_when_found_witness :
  path_exists pictures_env (u "pic.png") = true.
Proof.
  destruct (pictures_loaded_only_when_found ascii_decimals pictures_env
              [u "![a](pic.png)"] initial empty_world)
    as (o & evs & w' & Hrun & Hlog & _ & Hall).
  vm_compute in Hrun. injection Hrun as _ Hw. subst w'.
  cbn [w_log empty_world app] in Hlog. subst evs.
  apply Hall. vm_compute. right. left. reflexivity.
Defined.

(** X4 on a fence that is opened after a heading and never closed: the
    lines after it are lost, also one that python-docx would refuse. *)
Lemma unclosed_fence_drops_the_rest_witness :
  for_lines ascii_decimals quiet_env
            ([u "# T"] ++ u "```" :: [u "lost"; [VT]])
            initial empty_world
  = (Ok {| code_block := true; code_content := [u "lost"; [VT]] |},
     {| w_doc := [Heading (u "T") 1]; w_log := [] |}).
Proof.
  rewrite (unclosed_fence_drops_the_rest ascii_decimals quiet_env
             [u "# T"] (u "```") [u "lost"; [VT]] empty_world).
  - reflexivity.
  - reflexivity.
  - reflexivity.
  - intros l [<-|[<-|[]]]; reflexivity.
Defined.

(** X5 on [## T] and on [###### T]. *)
Lemma hash_and_bullet_lines_witness :
  step ascii_decimals quiet_env initial (u "## T") empty_world
  = (Ok initial, {| w_doc := [Heading (u "T") 2]; w_log := [] |})
  /\ step ascii_decimals quiet_env initial (u "###### T") empty_world
     = (Ok initial,
        {| w_doc := [Para {| p_style := None; p_alignment := None;
                             p_runs := [text_run (u "###### T")] |}];
           w_log := [] |}).
Proof.
  pose proof (hash_and_bullet_lines ascii_decimals quiet_env 2 (u "T") []
                                    empty_world eq_refl) as H2.
  pose proof (hash_and_bullet_lines ascii_decimals quiet_env 6 (u "T") []
                                    empty_world eq_refl) as H6.
  cbv zeta in H2, H6.
  split.
  - apply (proj1 H2). lia.
  - apply (proj1 (proj2 H6)). lia.
Defined.

(** X6 on [12. twelve]. *)
Lemma numbered_lines_witness :
  step ascii_decimals quiet_env initial (u "12. twelve") empty_world
  = (Ok initial,
     {| w_doc := [Para (new_paragraph (u "twelve") (Some (u "List Number")))];
        w_log := [] |}).
Proof.
  apply (@numbered_lines ascii_decimals quiet_env (chr "1") (u "2") (chr " ")
           (u "twelve") initial empty_world); reflexivity.
Defined.

(** X7 on a line of two spaces and a tab. *)
Lemma blank_lines_witness :
  step ascii_decimals quiet_env initial [chr " "; chr " "; 9%N] empty_world
  = (Ok initial,
     {| w_doc := [Para {| p_style := None; p_alignment := None;
                          p_runs := [] |}];
        w_log := [] |}).
Proof.
  apply (@blank_lines ascii_decimals quiet_env (fun c _ => eq_refl)
           [chr " "; chr " "; 9%N] initial empty_world); reflexivity.
Defined.

(** X8 on [![a](pic.png)] where the picture loads. *)
Lemma loaded_image_witness :
  step ascii_decimals pictures_env initial (u "![a](pic.png)") empty_world
  = (Ok initial,
     {| w_doc :=
          [Para (with_picture (u "pic.png") picture_paragraph);
           Para (caption_paragraph (u "a"))];
        w_log := [EExists (u "pic.png"); EAddPicture (u "pic.png")] |}).
Proof.
  apply (@loaded_image ascii_decimals pictures_env initial
           (u "![a](pic.png)")
           {| m_start := 0; m_end := 13; m_groups := [u "a"; u "pic.png"] |}
           empty_world); reflexivity.
Defined.

(** X9 on the same line where the picture does not load. *)
Lemma unloadable_image_witness :
  step ascii_decimals broken_pictures_env initial (u "![a](pic.png)")
       empty_world
  = (Ok initial,
     {| w_doc :=
          [Para picture_paragraph;
           Para (new_paragraph
                   (u "[Image: a - Could not load: not an image]") None)];
        w_log := [EExists (u "pic.png"); EAddPicture (u "pic.png")] |}).
Proof.
  apply (@unloadable_image ascii_decimals broken_pictures_env initial
           (u "![a](pic.png)")
           {| m_start := 0; m_end := 13; m_groups := [u "a"; u "pic.png"] |}
           {| exn_str := u "not an image" |} empty_world); reflexivity.
Defined.

(** X10 on [![a](b)]. *)
Lemma image_patterns_agree_witness :
  exists m,
    Re.re_match ascii_decimals image_re (u "![a](b)") = Some m
    /\ m_start m = 0 /\ m_start m <= m_end m.
Proof.
  apply (proj2 (image_patterns_agree ascii_decimals (u "![a](b)"))).
  reflexivity.
Defined.




(** X14 on [*b*]: its one match is not empty. *)
Lemma all_matches_sorted_witness :
  In {| m_start := 0; m_end := 3; m_groups := [u "b"] |}
     (Re.finditer ascii_decimals italic_pattern (u "*b*"))
  /\ 0 < 3.
Proof.
  apply (proj2 (all_matches_sorted ascii_decimals (u "*b*")) Italic
               {| m_start := 0; m_end := 3; m_groups := [u "b"] |}).
  vm_compute. left. reflexivity.
Defined.

(** X15 on [Hello world]. *)
Lemma plain_paragraph_line_witness :
  step ascii_decimals quiet_env initial (u "Hello world") empty_world
  = (Ok initial,
     {| w_doc := [Para {| p_style := None; p_alignment := None;
                          p_runs := [text_run (u "Hello world")] |}];
        w_log := [] |}).
Proof.
  apply (@plain_paragraph_line ascii_decimals quiet_env (u "Hello world")
           initial empty_world);
    try reflexivity; not_in_literal.
Defined.

(** X16 on [../charts/x.png]. *)
Lemma chart_rewrite_facts_witness :
  resolve (u "../charts/" ++ u "x.png") = u "outputs/charts/" ++ u "x.png".
Proof.
  apply (proj1 (proj2 chart_rewrite_facts) (u "x.png")). reflexivity.
Defined.


(** X18 with the stamp [20240101_120000]. *)
Lemma default_output_directory_witness :
  Path.dirname (Spec.target quiet_env None) = u "outputs/reports".
Proof.
  apply (@default_output_directory quiet_env). not_in_literal.
Defined.

(** X19 on two lines. *)
Lemma split_join_round_trip_witness :
  ~ In NL (u "ab").
Proof.
  apply (proj1 (proj2 (split_join_round_trip NL (u "ab" ++ [NL] ++ u "c")))).
  vm_compute. left. reflexivity.
Defined.

(** X21 for [/srv/app/main.py]. *)
Lemma data_file_beside_main_witness :
  Main.data_path (u "/srv/app/main.py") = u "/srv/app/data/data.csv".
Proof.
  apply (proj1 (@data_file_beside_main (u "/srv/ap") (chr "p") (u "main.py")
                  ltac:(not_in_literal))).
  discriminate.
Defined.

(** X22 on [|total: 5]. *)
Lemma lone_bar_line_is_dropped_witness :
  table_cells (u "|total: 5") = []
  /\ step ascii_decimals quiet_env initial (u "|total: 5") empty_world
     = (Ok initial, empty_world).
Proof.
  apply (@lone_bar_line_is_dropped ascii_decimals quiet_env (u "total: 5")
           initial empty_world).
  - reflexivity.
  - not_in_literal.
Defined.

(** X24 on the text [a<VT>b] followed by a heading. *)
Lemma refused_paragraph_fails_the_call_witness :
  _run ascii_decimals quiet_env ([chr "a"; VT; chr "b"] ++ NL :: u "# never")
       (Some (u "out/r.docx")) empty_world
  = (Ok (u "Error converting markdown to DOCX: All strings must be XML compatible: Unicode or ASCII, no NULL bytes or control characters"),
     {| w_doc := [Heading (u "Data Analysis Report") 0;
                  Para {| p_style := None; p_alignment := None;
                          p_runs := [text_run []] |}];
        w_log := [] |}).
Proof.
  apply (proj1 (@refused_paragraph_fails_the_call ascii_decimals quiet_env
                  [chr "a"; VT; chr "b"] (u "# never")
                  [chr "a"; VT; chr "b"] (Some (u "out/r.docx")) empty_world
                  eq_refl ltac:(not_in_literal) eq_refl
                  ltac:(not_in_literal) ltac:(not_in_literal) eq_refl)).
Defined.

(** X23 on a heading and a paragraph, where every path would exist. *)
Lemma only_image_lines_touch_files_witness :
  exists o w',
    for_lines ascii_decimals pictures_env [u "# T"; u "see pic.png"]
              initial empty_world
    = (o, w')
    /\ w_log w' = [].
Proof.
  apply (@only_image_lines_touch_files ascii_decimals pictures_env
           [u "# T"; u "see pic.png"]).
  intros l [<-|[<-|[]]]; reflexivity.
Defined.
